(** * SimpleAmqpClient: the channel table, the frame router and the close
      handshake of [src/ChannelImpl.cpp], as a shallow embedding.

    The C++ class [ChannelImpl] keeps three tables (open channels with their
    frame queues, the pool of idle channels, the consumer registry) next to a
    handle on the rabbitmq-c connection.  Its member functions mutate these
    tables and throw C++ exceptions; here every member function is a
    computation in a state-and-exception monad over a record of the same
    members.  The rabbitmq-c engine, [select] and the steady clock are the
    environment: their answers are scripted in the connection record and
    everything sent to them is logged there. *)

From stdpp Require Import base gmap list strings.
From Stdlib Require Import ZArith Lia.

Local Open Scope Z_scope.

(** ** Constants of rabbitmq-c ([amqp.h], [amqp_framing.h]) and of the platform *)

Definition AMQP_FRAME_METHOD : Z := 1.
Definition AMQP_FRAME_HEADER : Z := 2.
Definition AMQP_FRAME_BODY : Z := 3.

Definition AMQP_CONNECTION_CLOSE_METHOD : Z := 0x000A0032.
Definition AMQP_CONNECTION_CLOSE_OK_METHOD : Z := 0x000A0033.
Definition AMQP_CHANNEL_OPEN_METHOD : Z := 0x0014000A.
Definition AMQP_CHANNEL_OPEN_OK_METHOD : Z := 0x0014000B.
Definition AMQP_CHANNEL_CLOSE_METHOD : Z := 0x00140028.
Definition AMQP_CHANNEL_CLOSE_OK_METHOD : Z := 0x00140029.
Definition AMQP_CONFIRM_SELECT_METHOD : Z := 0x0055000A.
Definition AMQP_CONFIRM_SELECT_OK_METHOD : Z := 0x0055000B.

(** [amqp_response_type_enum] *)
Definition AMQP_RESPONSE_NONE : Z := 0.
Definition AMQP_RESPONSE_NORMAL : Z := 1.
Definition AMQP_RESPONSE_LIBRARY_EXCEPTION : Z := 2.
Definition AMQP_RESPONSE_SERVER_EXCEPTION : Z := 3.

Definition EINTR : Z := 4.

(** [std::numeric_limits<uint16_t>::max()] and the number of [uint16_t] values *)
Definition uint16_max : Z := 65535.
Definition uint16_modulus : Z := 65536.

(** [boost::chrono::microseconds::max()], the wait-forever timeout *)
Definition microseconds_max : Z := 2 ^ 63 - 1.

(** ** Data *)

(** [amqp_channel_t] is [uint16_t]. *)
Abbreviation amqp_channel_t := Z (only parsing).

(** [amqp_method_t]: the method id and the decoded method.  Of a decoded
    close method only the reply text is kept; it is what the exception built
    from it carries. *)
Record amqp_method_t : Type := mk_method {
  id : Z;
  decoded : string
}.

(** [amqp_frame_t].  The functions below read [frame_type], [channel] and,
    after comparing [frame_type] with [AMQP_FRAME_METHOD], [payload.method];
    the other members of the payload union are never read by them. *)
Record amqp_frame_t : Type := mk_frame {
  frame_type : Z;
  channel : amqp_channel_t;
  payload_method : amqp_method_t
}.

(** Modelled from the spec: [frame_queue_t] is declared in [ChannelImpl.h],
    which is not under [src/]; the spec has it as an ordered queue of
    frames, and the code uses it as a [std::vector<amqp_frame_t>]
    ([push_back], [begin], [erase]). *)
Abbreviation frame_queue_t := (list amqp_frame_t) (only parsing).

(** [amqp_rpc_reply_t] *)
Record amqp_rpc_reply_t : Type := mk_reply {
  reply_type : Z;
  reply : amqp_method_t;
  library_error : Z
}.

(** One call of [amqp_send_method]: channel, method id, returned status. *)
Record sent_method : Type := mk_sent {
  sent_channel : amqp_channel_t;
  sent_id : Z;
  sent_status : Z
}.

(** The connection handle [m_connection] together with the process
    environment the class talks to.
    - [channel_max]: what [amqp_get_channel_max] answers;
    - [send_status]: the statuses the next [amqp_send_method] calls return
      (0 once the script is used up), [sent]: the calls made so far;
    - [select_script]: return value and [errno] of the next [select] calls,
      [select_log]: the timeouts (microseconds) they were called with;
    - [wait_script]: status and frame of the next [amqp_simple_wait_frame]
      calls;
    - [clock]: the next readings of [steady_clock::now()], in nanoseconds.
    A call that finds its script used up does not return. *)
Record amqp_connection_state_t : Type := mk_conn {
  channel_max : Z;
  send_status : list Z;
  sent : list sent_method;
  select_script : list (Z * Z);
  select_log : list Z;
  wait_script : list (Z * amqp_frame_t);
  clock : list Z
}.

(** Modelled from the spec: the data members of [ChannelImpl] are declared
    in [ChannelImpl.h], which is not under [src/].  As the spec's data model
    and their uses in [ChannelImpl.cpp] have them: [m_open_channels] maps a
    channel id to the queue of the frames received for it, [m_free_channels]
    is the first-in first-out pool of idle ids, [m_consumer_channel_map]
    maps a consumer tag to a channel id, and [m_next_channel_id] is the
    16-bit id counter. *)
Record ChannelImpl : Type := mk_impl {
  m_connection : amqp_connection_state_t;
  m_next_channel_id : amqp_channel_t;
  m_open_channels : gmap Z frame_queue_t;
  m_free_channels : list amqp_channel_t;
  m_consumer_channel_map : gmap string amqp_channel_t
}.

Definition set_connection (c : amqp_connection_state_t) (s : ChannelImpl) : ChannelImpl :=
  mk_impl c (m_next_channel_id s) (m_open_channels s) (m_free_channels s)
          (m_consumer_channel_map s).

Definition set_next_channel_id (n : amqp_channel_t) (s : ChannelImpl) : ChannelImpl :=
  mk_impl (m_connection s) n (m_open_channels s) (m_free_channels s)
          (m_consumer_channel_map s).

Definition set_open_channels (t : gmap Z frame_queue_t) (s : ChannelImpl) : ChannelImpl :=
  mk_impl (m_connection s) (m_next_channel_id s) t (m_free_channels s)
          (m_consumer_channel_map s).

Definition set_free_channels (p : list amqp_channel_t) (s : ChannelImpl) : ChannelImpl :=
  mk_impl (m_connection s) (m_next_channel_id s) (m_open_channels s) p
          (m_consumer_channel_map s).

Definition set_consumer_channel_map (r : gmap string amqp_channel_t) (s : ChannelImpl) : ChannelImpl :=
  mk_impl (m_connection s) (m_next_channel_id s) (m_open_channels s)
          (m_free_channels s) r.

(** ** Exceptions *)

(** The text of a [std::runtime_error] or [std::logic_error]: a literal of
    the source, [context + ": " + amqp_error_string(code)] as
    [CheckForError] builds it, or the [select] failure text with its
    [errno]. *)
Inductive what_t : Type :=
  | Literal (text : string)
  | ErrorString (context : string) (code : Z)
  | SelectFailed (errno : Z).

Inductive exn : Type :=
  | runtime_error (what : what_t)
  | logic_error (what : what_t)
  | AmqpResponseLibraryException (r : amqp_rpc_reply_t) (context : string)
  | AmqpResponseServerException (reason : string) (context : string)
  | ConsumerTagNotFoundException.

(** ** The monad of member functions *)

(** A call returns a value, throws, or does not return (it waits on an
    environment whose script is used up).  The members keep whatever was
    written to them before a throw. *)
Inductive outcome (A : Type) : Type :=
  | Ret (a : A)
  | Throw (e : exn)
  | Blocks.
Arguments Ret {A} a.
Arguments Throw {A} e.
Arguments Blocks {A}.

Definition M (A : Type) : Type := ChannelImpl → outcome A * ChannelImpl.

Definition throw {A} (e : exn) : M A := λ s, (Throw e, s).
Definition blocks {A} : M A := λ s, (Blocks, s).

#[global] Instance M_ret : MRet M := λ A a s, (Ret a, s).

#[global] Instance M_bind : MBind M := λ A B k m s,
  match m s with
  | (Ret a, s') => k a s'
  | (Throw e, s') => (Throw e, s')
  | (Blocks, s') => (Blocks, s')
  end.

Definition get : M ChannelImpl := λ s, (Ret s, s).
Definition modify (f : ChannelImpl → ChannelImpl) : M unit := λ s, (Ret tt, f s).

(** ** The environment's calls *)

(** [amqp_send_method(m_connection, channel, id, decoded)] *)
Definition amqp_send_method (ch : amqp_channel_t) (method_id : Z) : M Z :=
  λ s, let c := m_connection s in
       let status := hd 0 (send_status c) in
       (Ret status,
        set_connection
          (mk_conn (channel_max c) (tl (send_status c))
                   (sent c ++ [mk_sent ch method_id status])
                   (select_script c) (select_log c) (wait_script c) (clock c)) s).

(** [amqp_simple_wait_frame(m_connection, &frame)]: status and the frame
    written. *)
Definition amqp_simple_wait_frame : M (Z * amqp_frame_t) :=
  λ s, let c := m_connection s in
       match wait_script c with
       | [] => (Blocks, s)
       | r :: rest =>
           (Ret r,
            set_connection
              (mk_conn (channel_max c) (send_status c) (sent c)
                       (select_script c) (select_log c) rest (clock c)) s)
       end.

(** [select(socketno + 1, &fds, NULL, NULL, &tv_timeout)] with
    [tv_timeout.tv_usec = timeout]: return value and [errno]. *)
Definition select (timeout : Z) : M (Z * Z) :=
  λ s, let c := m_connection s in
       match select_script c with
       | [] => (Blocks, s)
       | r :: rest =>
           (Ret r,
            set_connection
              (mk_conn (channel_max c) (send_status c) (sent c)
                       rest (select_log c ++ [timeout]) (wait_script c) (clock c)) s)
       end.

(** [boost::chrono::steady_clock::now()] *)
Definition steady_clock_now : M Z :=
  λ s, let c := m_connection s in
       match clock c with
       | [] => (Blocks, s)
       | t :: rest =>
           (Ret t,
            set_connection
              (mk_conn (channel_max c) (send_status c) (sent c)
                       (select_script c) (select_log c) (wait_script c) rest) s)
       end.

(** [amqp_get_channel_max(m_connection)] *)
Definition amqp_get_channel_max : M Z :=
  λ s, (Ret (channel_max (m_connection s)), s).

(** ** Member functions of [ChannelImpl] *)

(** [std::map::insert(std::make_pair(k, v))]: an element whose key is
    already in the map is kept as it is. *)
Definition std_map_insert `{Countable K} {V} (k : K) (v : V) (m : gmap K V) : gmap K V :=
  match m !! k with
  | Some _ => m
  | None => <[k := v]> m
  end.

(** The constructor: the id counter starts at 1 and channel 0 is open. *)
Definition ChannelImpl_new (c : amqp_connection_state_t) : ChannelImpl :=
  mk_impl c 1 (std_map_insert 0 [] ∅) [] ∅.

(** [CheckForError(ret, context)] *)
Definition CheckForError (r : Z) (context : string) : M unit :=
  if r <? 0 then throw (runtime_error (ErrorString context (- r)))
  else mret tt.

(** [IsChannelOpen] *)
Definition IsChannelOpen (ch : amqp_channel_t) : M bool :=
  s ← get; mret (bool_decide (is_Some (m_open_channels s !! ch))).

(** [FinishCloseChannel]: the table entry is erased, then the close-ok is
    sent and its status checked. *)
Definition FinishCloseChannel (ch : amqp_channel_t) : M unit :=
  modify (λ s, set_open_channels (delete ch (m_open_channels s)) s);;
  r ← amqp_send_method ch AMQP_CHANNEL_CLOSE_OK_METHOD;
  CheckForError r "ChannelImpl::FinishCloseChannel channel.close".

(** [FinishCloseConnection]: the status of the send is dropped. *)
Definition FinishCloseConnection : M unit :=
  _ ← amqp_send_method 0 AMQP_CONNECTION_CLOSE_OK_METHOD; mret tt.

(** [CheckRpcReply] *)
Definition CheckRpcReply (ch : amqp_channel_t) (r : amqp_rpc_reply_t)
    (context : string) : M unit :=
  if reply_type r =? AMQP_RESPONSE_NORMAL then mret tt
  else if reply_type r =? AMQP_RESPONSE_NONE then
    throw (logic_error (Literal "Got a amqp_rpc_reply_t with no reply_type!"))
  else if reply_type r =? AMQP_RESPONSE_LIBRARY_EXCEPTION then
    throw (AmqpResponseLibraryException r context)
  else if reply_type r =? AMQP_RESPONSE_SERVER_EXCEPTION then
    (if id (reply r) =? AMQP_CHANNEL_CLOSE_METHOD then FinishCloseChannel ch
     else if id (reply r) =? AMQP_CONNECTION_CLOSE_METHOD then FinishCloseConnection
     else mret tt);;
    throw (AmqpResponseServerException (decoded (reply r)) context)
  else throw (runtime_error (Literal "amqp_rpc_reply_t that didn't match!")).

(** [CheckFrameForClose] *)
Definition CheckFrameForClose (frame : amqp_frame_t) (ch : amqp_channel_t) : M unit :=
  if frame_type frame =? AMQP_FRAME_METHOD then
    if id (payload_method frame) =? AMQP_CHANNEL_CLOSE_METHOD then
      FinishCloseChannel ch;;
      throw (AmqpResponseServerException (decoded (payload_method frame))
               "Consuming message")
    else if id (payload_method frame) =? AMQP_CONNECTION_CLOSE_METHOD then
      FinishCloseConnection;;
      throw (AmqpResponseServerException (decoded (payload_method frame))
               "Consuming message")
    else mret tt
  else mret tt.

(** [AddConsumer]: [std::map::insert] keeps an element whose key is already
    there. *)
Definition AddConsumer (consumer_tag : string) (ch : amqp_channel_t) : M unit :=
  modify (λ s,
    set_consumer_channel_map
      (std_map_insert consumer_tag ch (m_consumer_channel_map s)) s).

(** [RemoveConsumer] *)
Definition RemoveConsumer (consumer_tag : string) : M amqp_channel_t :=
  s ← get;
  match m_consumer_channel_map s !! consumer_tag with
  | None => throw ConsumerTagNotFoundException
  | Some result =>
      modify (set_consumer_channel_map (delete consumer_tag (m_consumer_channel_map s)));;
      mret result
  end.

(** [GetConsumerChannel] *)
Definition GetConsumerChannel (consumer_tag : string) : M amqp_channel_t :=
  s ← get;
  match m_consumer_channel_map s !! consumer_tag with
  | None => throw ConsumerTagNotFoundException
  | Some ch => mret ch
  end.

(** [GetChannelQueueOrThrow]: the iterator is the key, returned with the
    queue it points at. *)
Definition GetChannelQueueOrThrow (ch : amqp_channel_t) : M (amqp_channel_t * frame_queue_t) :=
  s ← get;
  match m_open_channels s !! ch with
  | None => throw (runtime_error (Literal "Channel not found"))
  | Some q => mret (ch, q)
  end.

(** The loop of [GetNextChannelId],
    [while (m_open_channels.end() != m_open_channels.find(++m_next_channel_id))],
    on the 16-bit counter: the id it stops at.  There are [uint16_modulus]
    ids to probe; when all of them are in the table the loop never ends
    ([None]). *)
Fixpoint probe_next_channel_id (fuel : nat) (next : amqp_channel_t)
    (open : gmap Z frame_queue_t) : option amqp_channel_t :=
  match fuel with
  | O => None
  | S fuel' =>
      let next' := (next + 1) `mod` uint16_modulus in
      if bool_decide (is_Some (open !! next')) then probe_next_channel_id fuel' next' open
      else Some next'
  end.

(** [GetNextChannelId] *)
Definition GetNextChannelId : M amqp_channel_t :=
  max_channels ← amqp_get_channel_max;
  s ← get;
  let channel_count := Z.of_nat (size (m_open_channels s)) in
  (if 0 =? max_channels then
     if uint16_max <=? channel_count
     then throw (runtime_error (Literal "Too many channels open"))
     else mret tt
   else if max_channels <=? channel_count
     then throw (runtime_error (Literal "Too many channels open"))
     else mret tt);;
  match probe_next_channel_id (Z.to_nat uint16_modulus) (m_next_channel_id s)
          (m_open_channels s) with
  | None => blocks
  | Some next =>
      modify (set_next_channel_id next);;
      modify (λ s, set_open_channels (std_map_insert next [] (m_open_channels s)) s);;
      mret next
  end.

Section Rpc.

(** [DoRpcOnChannel] is a member template defined in [ChannelImpl.h], which
    is not under [src/]: it is a parameter of the functions of
    [ChannelImpl.cpp] that call it. *)
Variable DoRpcOnChannel : amqp_channel_t → Z → list Z → M amqp_frame_t.

(** [CreateNewChannel] *)
Definition CreateNewChannel : M amqp_channel_t :=
  new_channel ← GetNextChannelId;
  DoRpcOnChannel new_channel AMQP_CHANNEL_OPEN_METHOD [AMQP_CHANNEL_OPEN_OK_METHOD];;
  DoRpcOnChannel new_channel AMQP_CONFIRM_SELECT_METHOD [AMQP_CONFIRM_SELECT_OK_METHOD];;
  mret new_channel.

(** [GetChannel] *)
Definition GetChannel : M amqp_channel_t :=
  s ← get;
  match m_free_channels s with
  | [] => CreateNewChannel
  | front :: rest => modify (set_free_channels rest);; mret front
  end.

(** [n] calls of [GetChannel] one after the other, stopping at the first
    that does not return: the ids returned and how the last call ended. *)
Fixpoint GetChannel_times (n : nat) : M (list amqp_channel_t) :=
  match n with
  | O => mret []
  | S n' => c ← GetChannel; cs ← GetChannel_times n'; mret (c :: cs)
  end.

End Rpc.

(** [ReturnChannel]; [amqp_maybe_release_buffers] touches none of the
    members and nothing of the connection that is modelled. *)
Definition ReturnChannel (ch : amqp_channel_t) : M unit :=
  modify (λ s, set_free_channels (m_free_channels s ++ [ch]) s).

(** [GetNextFrameFromBroker(frame, timeout)]: [Some f] is [true] with [f]
    written to [frame], [None] is [false] with [frame] untouched.  The
    [goto start] after an interrupted [select] is the recursive call; every
    turn uses up one entry of [select_script] or does not return, so [fuel]
    above its length never runs out. *)
Fixpoint GetNextFrameFromBroker_start (fuel : nat) (timeout : Z) : M (option amqp_frame_t) :=
  let wait_frame : M (option amqp_frame_t) :=
    r ← amqp_simple_wait_frame;
    CheckForError r.1 "ChannelImpl::GetNextFrameOnChannel";;
    mret (Some r.2) in
  if negb (timeout =? microseconds_max) then
    match fuel with
    | O => blocks
    | S fuel' =>
        r ← select timeout;
        let select_return := r.1 in
        let errno := r.2 in
        if select_return =? 0 then mret None
        else if select_return =? -1 then
          if errno =? EINTR then GetNextFrameFromBroker_start fuel' timeout
          else throw (runtime_error (SelectFailed errno))
        else wait_frame
    end
  else wait_frame.

Definition GetNextFrameFromBroker (timeout : Z) : M (option amqp_frame_t) :=
  s ← get;
  GetNextFrameFromBroker_start (S (length (select_script (m_connection s)))) timeout.

(** [push_back] on the queue an iterator of the open-channel table points at. *)
Definition push_back (it : amqp_channel_t) (f : amqp_frame_t) : M unit :=
  modify (λ s, set_open_channels (alter (λ q, q ++ [f]) it (m_open_channels s)) s).

(** [boost::chrono] keeps a [steady_clock::time_point] and a duration as a
    signed 64-bit count (of nanoseconds for the time points here).  A sum
    or difference that leaves the range [-2^63 .. 2^63 - 1] is written out
    as the two's-complement wrap-around of the compiled code. *)
Definition int64_wrap (z : Z) : Z := (z + 2 ^ 63) `mod` 2 ^ 64 - 2 ^ 63.

Definition in_int64 (z : Z) : Prop := - 2 ^ 63 ≤ z < 2 ^ 63.

(** The [while] loop of [GetNextFrameFromBrokerOnChannel].  [frame] is the
    caller's frame (the reference parameter), [received_frame] the local the
    broker's frame is read into.  Every turn that goes round uses up one
    entry of [wait_script].  [end_point - now] is a 64-bit count of
    nanoseconds, and [duration_cast<microseconds>] truncates it. *)
Fixpoint GetNextFrameFromBrokerOnChannel_while (fuel : nat) (ch : amqp_channel_t)
    (frame : amqp_frame_t) (timeout end_point timeout_left : Z) : M (bool * amqp_frame_t) :=
  match fuel with
  | O => blocks
  | S fuel' =>
      got ← GetNextFrameFromBroker timeout_left;
      match got with
      | None => mret (false, frame)
      | Some received_frame =>
          if channel frame =? ch then mret (true, received_frame)
          else
            (if channel frame =? 0 then
               if (AMQP_FRAME_METHOD =? frame_type frame)
                  && (AMQP_CONNECTION_CLOSE_METHOD =? id (payload_method frame))
               then
                 FinishCloseConnection;;
                 throw (AmqpResponseServerException (decoded (payload_method frame))
                          "ChannelImpl::GetNextFrameFromBrokerOnChannel")
               else mret tt
             else
               it ← GetChannelQueueOrThrow (channel frame);
               push_back it.1 received_frame);;
            if negb (timeout =? microseconds_max) then
              now ← steady_clock_now;
              if now >=? end_point then mret (false, frame)
              else GetNextFrameFromBrokerOnChannel_while fuel' ch frame timeout end_point
                     (int64_wrap (end_point - now) `quot` 1000)
            else GetNextFrameFromBrokerOnChannel_while fuel' ch frame timeout end_point
                   timeout_left
      end
  end.

(** [GetNextFrameFromBrokerOnChannel(channel, frame, timeout)]: the [bool]
    returned and the caller's frame afterwards.  Time points are
    nanoseconds, timeouts microseconds: [now() + timeout] converts the
    timeout to a 64-bit count of nanoseconds and adds it to the 64-bit
    count of the clock. *)
Definition GetNextFrameFromBrokerOnChannel (ch : amqp_channel_t) (frame : amqp_frame_t)
    (timeout : Z) : M (bool * amqp_frame_t) :=
  end_point ← (if negb (timeout =? microseconds_max)
               then now ← steady_clock_now;
                    mret (int64_wrap (now + int64_wrap (timeout * 1000)))
               else mret 0);
  s ← get;
  GetNextFrameFromBrokerOnChannel_while (S (length (wait_script (m_connection s))))
    ch frame timeout end_point timeout.

(** [GetNextFrameOnChannel(channel, frame, timeout)].  [channel_queue] is
    declared [frame_queue_t], not [frame_queue_t&]: it is a copy of the
    queue in the table, and [erase] removes the front of that copy. *)
Definition GetNextFrameOnChannel (ch : amqp_channel_t) (frame : amqp_frame_t)
    (timeout : Z) : M (bool * amqp_frame_t) :=
  it ← GetChannelQueueOrThrow ch;
  let channel_queue : frame_queue_t := it.2 in
  match channel_queue with
  | front :: erased_copy =>
      let frame := front in
      if (AMQP_FRAME_METHOD =? frame_type frame)
         && (AMQP_CHANNEL_CLOSE_METHOD =? id (payload_method frame))
      then
        FinishCloseChannel ch;;
        throw (AmqpResponseServerException (decoded (payload_method frame))
                 "ChannelImpl::GetNextFrameOnChannel")
      else mret (true, frame)
  | [] => GetNextFrameFromBrokerOnChannel ch frame timeout
  end.

(** ** Vocabulary of the statements *)

(** The status the next [amqp_send_method] returns, and the connection after
    one send of [method_id] on [ch]. *)
Definition next_send_status (s : ChannelImpl) : Z := hd 0 (send_status (m_connection s)).

Definition connection_after_send (ch : amqp_channel_t) (method_id : Z)
    (c : amqp_connection_state_t) : amqp_connection_state_t :=
  mk_conn (channel_max c) (tl (send_status c))
          (sent c ++ [mk_sent ch method_id (hd 0 (send_status c))])
          (select_script c) (select_log c) (wait_script c) (clock c).

(** [finishChannelClose] in the order the specification gives: send the
    acknowledgement, then erase the table entry. *)
Definition finishChannelClose_send_then_erase (ch : amqp_channel_t) : M unit :=
  r ← amqp_send_method ch AMQP_CHANNEL_CLOSE_OK_METHOD;
  CheckForError r "ChannelImpl::FinishCloseChannel channel.close";;
  modify (λ s, set_open_channels (delete ch (m_open_channels s)) s).

(** The bound [GetNextChannelId] compares the size of the table with. *)
Definition channel_bound (max_channels : Z) : Z :=
  if decide (max_channels = 0) then uint16_max else max_channels.

(** What [GetNextChannelId] and [GetChannel] depend on: the ids in the
    open-channel table, the id counter, the pool and the advertised
    maximum. *)
Definition same_allocator_state (s s' : ChannelImpl) : Prop :=
  dom (m_open_channels s') = dom (m_open_channels s)
  ∧ m_next_channel_id s' = m_next_channel_id s
  ∧ m_free_channels s' = m_free_channels s
  ∧ channel_max (m_connection s') = channel_max (m_connection s).

(** One turn of the loop of [GetNextFrameFromBrokerOnChannel] as the
    environment sees it: what [select] returns, what
    [amqp_simple_wait_frame] returns, and the clock reading taken after the
    frame has been dealt with. *)
Record round : Type := mk_round {
  round_select : Z * Z;
  round_wait : Z * amqp_frame_t;
  round_now : Z
}.

(** The socket is readable and the frame is read without an error. *)
Definition round_reads (r : round) : Prop :=
  (round_select r).1 ≠ 0 ∧ (round_select r).1 ≠ -1 ∧ 0 ≤ (round_wait r).1.

(** How the wait ends once the deadline is reached: [select] reports the
    timeout, or one more frame is read and the clock reading after it is at
    or past [end_point]. *)
Inductive deadline_end : Type :=
  | select_times_out (errno : Z)
  | clock_passes (r : round).

(** What the ending takes from the scripts of [select], of
    [amqp_simple_wait_frame] and of the clock. *)
Definition ending_select (e : deadline_end) : Z * Z :=
  match e with
  | select_times_out errno => (0, errno)
  | clock_passes r => round_select r
  end.

Definition ending_wait (e : deadline_end) : list (Z * amqp_frame_t) :=
  match e with
  | select_times_out _ => []
  | clock_passes r => [round_wait r]
  end.

Definition ending_now (e : deadline_end) : list Z :=
  match e with
  | select_times_out _ => []
  | clock_passes r => [round_now r]
  end.

(** The ending happens at or after [end_point]. *)
Definition ending_at (end_point : Z) (e : deadline_end) : Prop :=
  match e with
  | select_times_out _ => True
  | clock_passes r => round_reads r ∧ end_point ≤ round_now r
  end.

(** The test the loop makes for a connection close. *)
Definition connection_close_frame (f : amqp_frame_t) : bool :=
  (AMQP_FRAME_METHOD =? frame_type f)
  && (AMQP_CONNECTION_CLOSE_METHOD =? id (payload_method f)).

(** The loop compares the channel of the caller's [frame]: with this, a
    frame read from the broker is neither returned nor the cause of an
    exception. *)
Definition set_aside_by (ch : amqp_channel_t) (frame : amqp_frame_t)
    (open : gmap Z frame_queue_t) : Prop :=
  channel frame ≠ ch
  ∧ (channel frame = 0 → connection_close_frame frame = false)
  ∧ (channel frame ≠ 0 → is_Some (open !! channel frame)).

(** The open-channel table after a frame has been set aside. *)
Definition set_aside (frame received_frame : amqp_frame_t)
    (open : gmap Z frame_queue_t) : gmap Z frame_queue_t :=
  if channel frame =? 0 then open
  else alter (λ q, q ++ [received_frame]) (channel frame) open.

(** The members after a turn of the loop that went through [select], the
    read, the routing and the clock. *)
Definition after_round (frame : amqp_frame_t) (timeout_left : Z) (r : round)
    (s : ChannelImpl) : ChannelImpl :=
  mk_impl
    (mk_conn (channel_max (m_connection s)) (send_status (m_connection s))
             (sent (m_connection s)) (tl (select_script (m_connection s)))
             (select_log (m_connection s) ++ [timeout_left])
             (tl (wait_script (m_connection s))) (tl (clock (m_connection s))))
    (m_next_channel_id s) (set_aside frame (round_wait r).2 (m_open_channels s))
    (m_free_channels s) (m_consumer_channel_map s).

(** The deadline of a wait of [timeout] (microseconds) that starts at the
    clock reading [start] (nanoseconds).  It is the [end_point] of the loop
    when it is inside the 64-bit range of the clock. *)
Definition deadline (timeout start : Z) : Z := start + timeout * 1000.

(** The time left until the deadline at a later clock reading, in
    microseconds. *)
Definition budget (timeout start now : Z) : Z := (deadline timeout start - now) `quot` 1000.

(** A turn that reads a frame before the deadline. *)
Definition round_in_time (timeout start : Z) (r : round) : Prop :=
  round_reads r ∧ start ≤ round_now r < deadline timeout start.

(** An RPC that is answered as expected: the method is sent and the reply
    is the first expected method, on the same channel. *)
Definition rpc_answered (ch : amqp_channel_t) (method_id : Z) (expected : list Z) :
    M amqp_frame_t :=
  r ← amqp_send_method ch method_id;
  CheckForError r "";;
  mret (mk_frame AMQP_FRAME_METHOD ch (mk_method (hd 0 expected) "")).

(** Every scripted send succeeds. *)
Definition sends_succeed (c : amqp_connection_state_t) : Prop :=
  Forall (λ status, 0 ≤ status) (send_status c).

(** ** Example states *)

(** A connection with the advertised maximum [max_channels] on which
    nothing has happened and nothing is scripted. *)
Definition quiet_connection (max_channels : Z) : amqp_connection_state_t :=
  mk_conn max_channels [] [] [] [] [] [].

(** Only channel 0 is open and "tag1" is registered to channel 7. *)
Definition registry_example : ChannelImpl :=
  mk_impl (mk_conn 0 [] [] [] [] [] []) 1 {[ 0 := [] ]} [] {[ "tag1" := 7 ]}.

(** Channel 3 is open with one buffered frame and the next send fails. *)
Definition failing_send_example : ChannelImpl :=
  mk_impl (mk_conn 0 [-1] [] [] [] [] []) 3
          {[ 0 := []; 3 := [mk_frame AMQP_FRAME_BODY 3 (mk_method 0 "")] ]} [] ∅.

(** A body frame, a header frame and a channel-close method frame on
    channel [c]. *)
Definition body_frame (c : amqp_channel_t) (text : string) : amqp_frame_t :=
  mk_frame AMQP_FRAME_BODY c (mk_method 0 text).

Definition header_frame (c : amqp_channel_t) : amqp_frame_t :=
  mk_frame AMQP_FRAME_HEADER c (mk_method 0 "").

Definition channel_close_frame (c : amqp_channel_t) (reason : string) : amqp_frame_t :=
  mk_frame AMQP_FRAME_METHOD c (mk_method AMQP_CHANNEL_CLOSE_METHOD reason).

(** Channels 0, 1 and 2 are open with empty queues; the socket is readable
    and the broker's next frame is a body frame on channel 1; the clock
    reads 0 and then 2 ms. *)
Definition router_example : ChannelImpl :=
  mk_impl (mk_conn 0 [] [] [(1, 0)] [] [(0, body_frame 1 "for channel 1")] [0; 2000000])
          2 {[ 0 := []; 1 := []; 2 := [] ]} [] ∅.

(** The same with the broker's next frame on channel 2. *)
Definition router_example_other : ChannelImpl :=
  mk_impl (mk_conn 0 [] [] [(1, 0)] [] [(0, body_frame 2 "for channel 2")] [0; 2000000])
          2 {[ 0 := []; 1 := []; 2 := [] ]} [] ∅.

(** Channel 1 is open with a header frame and a body frame buffered. *)
Definition buffered_example : ChannelImpl :=
  mk_impl (mk_conn 0 [] [] [] [] [] []) 1
          {[ 0 := []; 1 := [header_frame 1; body_frame 1 "payload"] ]} [] ∅.

(** Channel 1 is open with an empty queue and the broker's next frame is a
    channel close for channel 1. *)
Definition close_example : ChannelImpl :=
  mk_impl (mk_conn 0 [] [] [] []
             [(0, channel_close_frame 1 "PRECONDITION_FAILED")] [])
          1 {[ 0 := []; 1 := [] ]} [] ∅.

(** A server exception that closes the channel, one that closes the
    connection, and a reply without a type. *)
Definition channel_close_reply : amqp_rpc_reply_t :=
  mk_reply AMQP_RESPONSE_SERVER_EXCEPTION
           (mk_method AMQP_CHANNEL_CLOSE_METHOD "NOT_FOUND - no queue") 0.

Definition connection_close_reply : amqp_rpc_reply_t :=
  mk_reply AMQP_RESPONSE_SERVER_EXCEPTION
           (mk_method AMQP_CONNECTION_CLOSE_METHOD "CONNECTION_FORCED") 0.

Definition no_reply : amqp_rpc_reply_t :=
  mk_reply AMQP_RESPONSE_NONE (mk_method 0 "") 0.

(** Channels 0, 1 and 2 are open with empty queues; nothing is readable. *)
Definition polling_example : ChannelImpl :=
  mk_impl (mk_conn 0 [] [] [(0, 0)] [] [] [0]) 2 {[ 0 := []; 1 := []; 2 := [] ]} [] ∅.

(** A body frame is read 0.4 ms after the start, then [select] times out. *)
Definition late_example : ChannelImpl :=
  mk_impl (mk_conn 0 [] [] [(1, 0); (0, 0)] [] [(0, body_frame 2 "later")] [0; 400000])
          2 {[ 0 := []; 1 := []; 2 := [] ]} [] ∅.

(** The turn of [late_example] that reads the frame. *)
Definition late_round : round := mk_round (1, 0) (0, body_frame 2 "later") 400000.

(** ** Further vocabulary and example states *)

(** The two close methods: the frame test of [CheckFrameForClose] and of
    the buffered path of [GetNextFrameOnChannel]. *)
Definition channel_close_method (f : amqp_frame_t) : Prop :=
  frame_type f = AMQP_FRAME_METHOD
  ∧ id (payload_method f) = AMQP_CHANNEL_CLOSE_METHOD.

Definition connection_close_method (f : amqp_frame_t) : Prop :=
  frame_type f = AMQP_FRAME_METHOD
  ∧ id (payload_method f) = AMQP_CONNECTION_CLOSE_METHOD.

(** A reply of type [AMQP_RESPONSE_NORMAL] and one of type
    [AMQP_RESPONSE_LIBRARY_EXCEPTION]. *)
Definition normal_reply : amqp_rpc_reply_t :=
  mk_reply AMQP_RESPONSE_NORMAL (mk_method AMQP_CHANNEL_OPEN_OK_METHOD "") 0.

Definition library_reply : amqp_rpc_reply_t :=
  mk_reply AMQP_RESPONSE_LIBRARY_EXCEPTION (mk_method 0 "") (-9).

(** Channel 1 is open with a channel close buffered in front of a body
    frame. *)
Definition buffered_close_example : ChannelImpl :=
  mk_impl (mk_conn 0 [] [] [] [] [] []) 1
          {[ 0 := [];
             1 := [channel_close_frame 1 "PRECONDITION_FAILED"; body_frame 1 "after"] ]}
          [] ∅.

(** The pool after [ReturnChannel] of every id of a list, in order. *)
Fixpoint ReturnChannel_each (chs : list amqp_channel_t) : M unit :=
  match chs with
  | [] => mret tt
  | ch :: chs' => ReturnChannel ch;; ReturnChannel_each chs'
  end.

(** The id counter is at the last 16-bit value and channels 0 and 1 are
    open. *)
Definition wrap_example : ChannelImpl :=
  mk_impl (quiet_connection 0) 65535 {[ 0 := []; 1 := [] ]} [] ∅.

(** A computation keeps a relation between the members before and after
    it, however it ends. *)
Definition keeps {A} (R : ChannelImpl → ChannelImpl → Prop) (m : M A) : Prop :=
  ∀ s, R s (m s).2.

(** What a read on channel [ch] leaves alone: the id counter, the pool, the
    consumer registry and the advertised maximum stay, no channel is opened,
    the queue of [ch] is as it was or gone with its entry, and whatever is
    sent is a close acknowledgement. *)
Definition router_keeps (ch : amqp_channel_t) (s s' : ChannelImpl) : Prop :=
  m_next_channel_id s' = m_next_channel_id s
  ∧ m_free_channels s' = m_free_channels s
  ∧ m_consumer_channel_map s' = m_consumer_channel_map s
  ∧ channel_max (m_connection s') = channel_max (m_connection s)
  ∧ dom (m_open_channels s') ⊆ dom (m_open_channels s)
  ∧ (m_open_channels s' !! ch = m_open_channels s !! ch
     ∨ m_open_channels s' !! ch = None)
  ∧ ∃ acks,
      sent (m_connection s') = sent (m_connection s) ++ acks
      ∧ Forall (λ m, sent_id m = AMQP_CHANNEL_CLOSE_OK_METHOD
                     ∨ sent_id m = AMQP_CONNECTION_CLOSE_OK_METHOD) acks.

(** No [select] was made and the clock was not read. *)
Definition polls_nothing (s s' : ChannelImpl) : Prop :=
  select_script (m_connection s') = select_script (m_connection s)
  ∧ select_log (m_connection s') = select_log (m_connection s)
  ∧ clock (m_connection s') = clock (m_connection s).

(** The connection after [n] calls of [select] with [timeout] that leave
    [rest] of the script. *)
Definition after_selects (n : nat) (timeout : Z) (rest : list (Z * Z))
    (s : ChannelImpl) : ChannelImpl :=
  set_connection
    (mk_conn (channel_max (m_connection s)) (send_status (m_connection s))
             (sent (m_connection s)) rest
             (select_log (m_connection s) ++ replicate n timeout)
             (wait_script (m_connection s)) (clock (m_connection s))) s.

(** Two [select] calls are interrupted, the third reports the timeout. *)
Definition interrupted_example : ChannelImpl :=
  mk_impl (mk_conn 0 [] [] [(-1, EINTR); (-1, EINTR); (0, 0)] [] [] [0])
          2 {[ 0 := []; 1 := [] ]} [] ∅.



(** The frames read in the turns of a wait and at its ending, in the order
    of their arrival. *)
Definition frames_read (rounds : list round) (e : deadline_end) : list amqp_frame_t :=
  map (λ r, (round_wait r).2) rounds ++ map snd (ending_wait e).

(** Two body frames, for channels 1 and 3, are read 0.2 ms and 0.4 ms after
    the start; then [select] times out.  Channel 2 already holds a frame. *)
Definition two_frames_example : ChannelImpl :=
  mk_impl (mk_conn 0 [] [] [(1, 0); (1, 0); (0, 0)] []
             [(0, body_frame 1 "first"); (0, body_frame 3 "second")]
             [0; 200000; 400000])
          3 {[ 0 := []; 1 := []; 2 := [header_frame 2]; 3 := [] ]} [] ∅.

Definition two_rounds : list round :=
  [mk_round (1, 0) (0, body_frame 1 "first") 200000;
   mk_round (1, 0) (0, body_frame 3 "second") 400000].

(** Tags "tag1" and "tag3" are registered, to channels 7 and 9. *)
Definition two_tags_example : ChannelImpl :=
  mk_impl (quiet_connection 0) 1 {[ 0 := [] ]} [] {[ "tag1" := 7; "tag3" := 9 ]}.

(** The wait gets as far as the read of the next frame: it waits forever,
    or the clock can be read and [select] reports the socket readable. *)
Definition reaches_read (timeout : Z) (c : amqp_connection_state_t) : Prop :=
  timeout = microseconds_max
  ∨ (clock c ≠ []
     ∧ ∃ sel srest, select_script c = sel :: srest ∧ sel.1 ≠ 0 ∧ sel.1 ≠ -1).

(** Channel 1 is open with an empty queue, the socket is readable, the
    broker's next frame is a channel close for channel 1, and the next send
    fails. *)
Definition close_failing_send_example : ChannelImpl :=
  mk_impl (mk_conn 0 [-1] [] [(1, 0)] []
             [(0, channel_close_frame 1 "PRECONDITION_FAILED")] [0])
          1 {[ 0 := []; 1 := [] ]} [] ∅.

(** Channels 0, 1 and 2 are open with empty queues; the socket stays
    readable, and a frame is read 1 microsecond after the start. *)
Definition long_wait_example : ChannelImpl :=
  mk_impl (mk_conn 0 [] [] [(1, 0); (1, 0)] []
             [(0, body_frame 2 "early"); (0, body_frame 1 "unread")] [0; 1000])
          2 {[ 0 := []; 1 := []; 2 := [] ]} [] ∅.

(** The turn of [long_wait_example] that reads the first frame. *)
Definition early_round : round := mk_round (1, 0) (0, body_frame 2 "early") 1000.

(** ** Tactics *)

(** Projections of the members and of the connection applied to a record. *)
Ltac simpl_members :=
  cbn [fst snd m_connection m_next_channel_id m_open_channels m_free_channels
       m_consumer_channel_map channel_max send_status sent select_script
       select_log wait_script clock hd tl] in *.

(** Unfolding the monad in a goal about a run of member functions. *)
Ltac unfold_run :=
  unfold mbind, M_bind, mret, M_ret, throw, blocks, get, modify in *; simpl_members.

(** * Properties *)

Lemma bind_Ret {A B} (m : M A) (k : A → M B) (s s' : ChannelImpl) (a : A) :
  m s = (Ret a, s') → (m ≫= k) s = k a s'.
Proof. intros Hm. unfold mbind, M_bind. by rewrite Hm. Qed.

Lemma bind_Throw {A B} (m : M A) (k : A → M B) (s s' : ChannelImpl) (e : exn) :
  m s = (Throw e, s') → (m ≫= k) s = (Throw e, s').
Proof. intros Hm. unfold mbind, M_bind. by rewrite Hm. Qed.

Lemma bind_Blocks {A B} (m : M A) (k : A → M B) (s s' : ChannelImpl) :
  m s = (Blocks, s') → (m ≫= k) s = (Blocks, s').
Proof. intros Hm. unfold mbind, M_bind. by rewrite Hm. Qed.

Lemma bind_Ret_inv {A B} (m : M A) (k : A → M B) (s s' : ChannelImpl) (b : B) :
  (m ≫= k) s = (Ret b, s') → ∃ a s1, m s = (Ret a, s1) ∧ k a s1 = (Ret b, s').
Proof.
  unfold mbind, M_bind. destruct (m s) as [[a | e |] s1]; try discriminate.
  intros Hk. by exists a, s1.
Qed.

(** ** The consumer registry *)

Lemma std_map_insert_fresh `{Countable K} {V} (k : K) (v : V) (m : gmap K V) :
  m !! k = None → std_map_insert k v m = <[k := v]> m.
Proof. intros Hk. unfold std_map_insert. by rewrite Hk. Qed.

Lemma std_map_insert_present `{Countable K} {V} (k : K) (v w : V) (m : gmap K V) :
  m !! k = Some w → std_map_insert k v m = m.
Proof. intros Hk. unfold std_map_insert. by rewrite Hk. Qed.

(** C8, as stated, fails: with "tag1" registered to channel 7,
    [registerConsumer("tag1", 5)] followed by
    [lookupConsumerChannel("tag1")] returns 7, not 5. *)
Lemma AddConsumer_GetConsumerChannel_registered_tag :
  ((AddConsumer "tag1" 5;; GetConsumerChannel "tag1") registry_example).1 = Ret 7
  ∧ ((AddConsumer "tag1" 5;; GetConsumerChannel "tag1") registry_example).1 ≠ Ret 5.
Proof. split; [reflexivity | discriminate]. Qed.

(** C8 (amended): for every tag [t] that is not registered and every channel
    id [c], [AddConsumer t c] followed by [GetConsumerChannel t] returns [c];
    [RemoveConsumer t] then returns [c] and puts the registry back as it was,
    and after it both [GetConsumerChannel t] and [RemoveConsumer t] throw
    [ConsumerTagNotFoundException]. *)
Theorem consumer_round_trip (t : string) (c : amqp_channel_t) (s : ChannelImpl) :
  m_consumer_channel_map s !! t = None →
  let s1 := (AddConsumer t c s).2 in
  let s2 := (RemoveConsumer t s1).2 in
  AddConsumer t c s = (Ret tt, s1)
  ∧ GetConsumerChannel t s1 = (Ret c, s1)
  ∧ RemoveConsumer t s1 = (Ret c, s2)
  ∧ s2 = s
  ∧ GetConsumerChannel t s2 = (Throw ConsumerTagNotFoundException, s2)
  ∧ RemoveConsumer t s2 = (Throw ConsumerTagNotFoundException, s2).
Proof.
  intros Hfresh. destruct s as [conn next open free registry]. simpl in Hfresh.
  unfold AddConsumer, GetConsumerChannel, RemoveConsumer, set_consumer_channel_map.
  unfold_run.
  rewrite (std_map_insert_fresh _ _ _ Hfresh), lookup_insert_eq. simpl.
  rewrite delete_insert_id by done. rewrite Hfresh.
  repeat split; reflexivity.
Qed.

Lemma consumer_round_trip_witness :
  let s := registry_example in
  let s1 := (AddConsumer "tag2" 5 s).2 in
  let s2 := (RemoveConsumer "tag2" s1).2 in
  m_consumer_channel_map s !! "tag2" = None
  ∧ AddConsumer "tag2" 5 s = (Ret tt, s1)
  ∧ GetConsumerChannel "tag2" s1 = (Ret 5, s1)
  ∧ RemoveConsumer "tag2" s1 = (Ret 5, s2)
  ∧ s2 = s
  ∧ GetConsumerChannel "tag2" s2 = (Throw ConsumerTagNotFoundException, s2)
  ∧ RemoveConsumer "tag2" s2 = (Throw ConsumerTagNotFoundException, s2).
Proof.
  split; [reflexivity |].
  apply (consumer_round_trip "tag2" 5 registry_example). reflexivity.
Defined.

(** C10: [AddConsumer tag c] on a registry where [tag] is registered to [c0]
    returns without an exception and leaves every member as it was; [tag]
    still maps to [c0]. *)
Theorem AddConsumer_duplicate_is_noop (tag : string) (c c0 : amqp_channel_t)
    (s : ChannelImpl) :
  m_consumer_channel_map s !! tag = Some c0 →
  AddConsumer tag c s = (Ret tt, s)
  ∧ m_consumer_channel_map (AddConsumer tag c s).2 !! tag = Some c0
  ∧ GetConsumerChannel tag (AddConsumer tag c s).2 = (Ret c0, s).
Proof.
  intros Hreg. destruct s as [conn next open free registry]. simpl in Hreg.
  unfold AddConsumer, GetConsumerChannel, set_consumer_channel_map. unfold_run.
  rewrite (std_map_insert_present _ _ _ _ Hreg), Hreg. done.
Qed.

Lemma AddConsumer_duplicate_is_noop_witness :
  m_consumer_channel_map registry_example !! "tag1" = Some 7
  ∧ AddConsumer "tag1" 5 registry_example = (Ret tt, registry_example)
  ∧ m_consumer_channel_map (AddConsumer "tag1" 5 registry_example).2 !! "tag1" = Some 7
  ∧ GetConsumerChannel "tag1" (AddConsumer "tag1" 5 registry_example).2
    = (Ret 7, registry_example).
Proof.
  split; [reflexivity |].
  apply (AddConsumer_duplicate_is_noop "tag1" 5 7 registry_example). reflexivity.
Defined.

(** ** The close handshake *)

Lemma FinishCloseChannel_run (ch : amqp_channel_t) (s : ChannelImpl) :
  FinishCloseChannel ch s =
  ((if next_send_status s <? 0
    then Throw (runtime_error
                  (ErrorString "ChannelImpl::FinishCloseChannel channel.close"
                     (- next_send_status s)))
    else Ret tt),
   mk_impl (connection_after_send ch AMQP_CHANNEL_CLOSE_OK_METHOD (m_connection s))
           (m_next_channel_id s) (delete ch (m_open_channels s))
           (m_free_channels s) (m_consumer_channel_map s)).
Proof.
  destruct s as [conn next open free registry].
  unfold FinishCloseChannel, CheckForError, amqp_send_method, next_send_status,
    connection_after_send, set_open_channels, set_connection.
  unfold_run. by destruct (hd 0 (send_status conn) <? 0).
Qed.

Lemma FinishCloseConnection_run (s : ChannelImpl) :
  FinishCloseConnection s =
  (Ret tt,
   set_connection
     (connection_after_send 0 AMQP_CONNECTION_CLOSE_OK_METHOD (m_connection s)) s).
Proof. reflexivity. Qed.

(** C9, as stated, fails: when the send of the acknowledgement fails,
    [FinishCloseChannel] has already erased the entry of channel 3, while
    sending first and erasing afterwards leaves it in the table. *)
Lemma FinishCloseChannel_not_send_then_erase :
  m_open_channels (FinishCloseChannel 3 failing_send_example).2 !! 3 = None
  ∧ is_Some (m_open_channels
               (finishChannelClose_send_then_erase 3 failing_send_example).2 !! 3)
  ∧ FinishCloseChannel 3 failing_send_example
    ≠ finishChannelClose_send_then_erase 3 failing_send_example.
Proof.
  split; [reflexivity |]. split; [by eexists |].
  intros Heq. apply (f_equal (λ r, m_open_channels r.2 !! 3)) in Heq.
  vm_compute in Heq. discriminate.
Qed.

(** C9 (amended): [FinishCloseChannel ch] erases the entry of [ch], with the
    frames buffered in it, from the open-channel table first and then sends
    the channel-close acknowledgement on [ch]: the entry is gone and the send
    is logged whatever the send returns, no other entry and no other member
    changes, and the call throws exactly when the send returns a negative
    status. *)
Theorem FinishCloseChannel_erases_then_sends (ch : amqp_channel_t) (s : ChannelImpl) :
  let r := FinishCloseChannel ch s in
  m_open_channels r.2 = delete ch (m_open_channels s)
  ∧ m_open_channels r.2 !! ch = None
  ∧ sent (m_connection r.2)
    = sent (m_connection s)
      ++ [mk_sent ch AMQP_CHANNEL_CLOSE_OK_METHOD (next_send_status s)]
  ∧ m_next_channel_id r.2 = m_next_channel_id s
  ∧ m_free_channels r.2 = m_free_channels s
  ∧ m_consumer_channel_map r.2 = m_consumer_channel_map s
  ∧ r.1 = (if next_send_status s <? 0
           then Throw (runtime_error
                         (ErrorString "ChannelImpl::FinishCloseChannel channel.close"
                            (- next_send_status s)))
           else Ret tt).
Proof.
  intros r. subst r. rewrite FinishCloseChannel_run. simpl.
  rewrite lookup_delete_eq. repeat split; reflexivity.
Qed.

(** ** Checking an RPC reply *)

(** C6, as stated, fails: channel 3 is open and the send of the
    channel-close acknowledgement reports a transport error.
    [CheckRpcReply] on a channel-close reply then throws that error, a
    [std::runtime_error] from [FinishCloseChannel], and the server exception
    with the server's reason is not raised. *)
Lemma CheckRpcReply_channel_close_send_fails :
  (CheckRpcReply 3 channel_close_reply "declare" failing_send_example).1
  = Throw (runtime_error (ErrorString "ChannelImpl::FinishCloseChannel channel.close" 1))
  ∧ (CheckRpcReply 3 channel_close_reply "declare" failing_send_example).1
    ≠ Throw (AmqpResponseServerException "NOT_FOUND - no queue" "declare").
Proof. split; vm_compute; [reflexivity | discriminate]. Qed.

(** C6 (amended): [CheckRpcReply] on a server-exception reply.  When the
    reply is a channel close, the close handshake of the channel is run
    (entry erased, acknowledgement sent on the channel) and then
    [AmqpResponseServerException] with the server's reason is thrown, unless
    the send of the acknowledgement reports a transport error: then that
    error is what is thrown.  When the reply is a connection close, the
    connection-close acknowledgement is sent on channel 0, its status is not
    looked at, and the exception with the server's reason is thrown.  A
    reply of type [AMQP_RESPONSE_NONE] always throws a [std::logic_error]
    and changes nothing. *)
Theorem CheckRpcReply_failure_replies (ch : amqp_channel_t) (r : amqp_rpc_reply_t)
    (context : string) (s : ChannelImpl) :
  (reply_type r = AMQP_RESPONSE_SERVER_EXCEPTION →
   id (reply r) = AMQP_CHANNEL_CLOSE_METHOD →
   CheckRpcReply ch r context s
   = ((if next_send_status s <? 0
       then Throw (runtime_error
                     (ErrorString "ChannelImpl::FinishCloseChannel channel.close"
                        (- next_send_status s)))
       else Throw (AmqpResponseServerException (decoded (reply r)) context)),
      (FinishCloseChannel ch s).2)
   ∧ m_open_channels (CheckRpcReply ch r context s).2 !! ch = None
   ∧ sent (m_connection (CheckRpcReply ch r context s).2)
     = sent (m_connection s)
       ++ [mk_sent ch AMQP_CHANNEL_CLOSE_OK_METHOD (next_send_status s)])
  ∧ (reply_type r = AMQP_RESPONSE_SERVER_EXCEPTION →
     id (reply r) = AMQP_CONNECTION_CLOSE_METHOD →
     CheckRpcReply ch r context s
     = (Throw (AmqpResponseServerException (decoded (reply r)) context),
        (FinishCloseConnection s).2)
     ∧ sent (m_connection (CheckRpcReply ch r context s).2)
       = sent (m_connection s)
         ++ [mk_sent 0 AMQP_CONNECTION_CLOSE_OK_METHOD (next_send_status s)])
  ∧ (reply_type r = AMQP_RESPONSE_NONE →
     CheckRpcReply ch r context s
     = (Throw (logic_error (Literal "Got a amqp_rpc_reply_t with no reply_type!")), s)).
Proof.
  split; [| split].
  - intros Hty Hid.
    assert (Hrun : CheckRpcReply ch r context s
                   = ((if next_send_status s <? 0
                       then Throw (runtime_error
                                     (ErrorString
                                        "ChannelImpl::FinishCloseChannel channel.close"
                                        (- next_send_status s)))
                       else Throw (AmqpResponseServerException (decoded (reply r))
                                     context)),
                      (FinishCloseChannel ch s).2)).
    { unfold CheckRpcReply. rewrite Hty, Hid. simpl.
      unfold mbind, M_bind. rewrite FinishCloseChannel_run.
      by destruct (next_send_status s <? 0). }
    rewrite Hrun, FinishCloseChannel_run. simpl.
    by rewrite lookup_delete_eq.
  - intros Hty Hid. unfold CheckRpcReply. rewrite Hty, Hid. simpl.
    unfold mbind at 1. unfold M_bind. by rewrite FinishCloseConnection_run.
  - intros Hty. unfold CheckRpcReply. by rewrite Hty.
Qed.

(** ** Allocation of channel ids *)

Lemma probe_next_channel_id_None (fuel : nat) (next : amqp_channel_t)
    (open : gmap Z frame_queue_t) :
  probe_next_channel_id fuel next open = None →
  ∀ k, 1 ≤ k ≤ Z.of_nat fuel → is_Some (open !! ((next + k) `mod` uint16_modulus)).
Proof.
  revert next. induction fuel as [| fuel IH]; intros next Hprobe k Hk; [lia |].
  cbn [probe_next_channel_id] in Hprobe. case_bool_decide as Hin; [| done].
  destruct (decide (k = 1)) as [-> | Hne]; [done |].
  specialize (IH _ Hprobe (k - 1) ltac:(lia)).
  rewrite Z.add_mod_idemp_l in IH by (unfold uint16_modulus; lia).
  by replace (next + 1 + (k - 1)) with (next + k) in IH by lia.
Qed.

Lemma probe_next_channel_id_Some (fuel : nat) (next n : amqp_channel_t)
    (open : gmap Z frame_queue_t) :
  probe_next_channel_id fuel next open = Some n →
  open !! n = None ∧ 0 ≤ n < uint16_modulus.
Proof.
  revert next. induction fuel as [| fuel IH]; intros next Hprobe; [done |].
  cbn [probe_next_channel_id] in Hprobe. case_bool_decide as Hin; [by eapply IH |].
  injection Hprobe as <-. split.
  - by apply eq_None_not_Some.
  - apply Z.mod_pos_bound. unfold uint16_modulus. lia.
Qed.

(** With fewer than [uint16_modulus] entries in the table the loop stops. *)
Lemma probe_next_channel_id_stops (next : amqp_channel_t) (open : gmap Z frame_queue_t) :
  Z.of_nat (size open) < uint16_modulus →
  is_Some (probe_next_channel_id (Z.to_nat uint16_modulus) next open).
Proof.
  intros Hsize.
  destruct (probe_next_channel_id _ next open) as [n |] eqn:Hprobe; [by eexists |].
  exfalso.
  assert (Hall : (list_to_set (seqZ 0 uint16_modulus) : gset Z) ⊆ dom open).
  { intros x Hx. rewrite elem_of_list_to_set, elem_of_seqZ in Hx.
    apply elem_of_dom.
    pose proof (probe_next_channel_id_None _ _ _ Hprobe
                  ((x - next - 1) `mod` uint16_modulus + 1)) as Hk.
    pose proof (Z.mod_pos_bound (x - next - 1) uint16_modulus
                  ltac:(unfold uint16_modulus; lia)) as Hb.
    rewrite Z2Nat.id in Hk by (unfold uint16_modulus; lia).
    specialize (Hk ltac:(lia)).
    replace (next + ((x - next - 1) `mod` uint16_modulus + 1))
      with ((x - next - 1) `mod` uint16_modulus + (next + 1)) in Hk by lia.
    rewrite Z.add_mod_idemp_l in Hk by (unfold uint16_modulus; lia).
    replace (x - next - 1 + (next + 1)) with x in Hk by lia.
    by rewrite Z.mod_small in Hk by lia. }
  apply subseteq_size in Hall.
  rewrite size_list_to_set, length_seqZ, size_dom in Hall by apply NoDup_seqZ.
  lia.
Qed.

Lemma GetNextChannelId_too_many (s : ChannelImpl) :
  channel_bound (channel_max (m_connection s)) ≤ Z.of_nat (size (m_open_channels s)) →
  GetNextChannelId s = (Throw (runtime_error (Literal "Too many channels open")), s).
Proof.
  intros Hfull. unfold GetNextChannelId, channel_bound in *.
  rewrite (bind_Ret _ _ s s (channel_max (m_connection s))) by reflexivity.
  rewrite (bind_Ret _ _ s s s) by reflexivity.
  apply bind_Throw. case_decide as Hmax.
  - rewrite Hmax. change (0 =? 0) with true. cbv iota.
    by rewrite (proj2 (Z.leb_le _ _) Hfull).
  - destruct (Z.eqb_spec 0 (channel_max (m_connection s))) as [Heq | _]; [lia |].
    by rewrite (proj2 (Z.leb_le _ _) Hfull).
Qed.

Lemma GetNextChannelId_allocates (s : ChannelImpl) :
  channel_max (m_connection s) ≤ uint16_max →
  Z.of_nat (size (m_open_channels s)) < channel_bound (channel_max (m_connection s)) →
  ∃ next,
    GetNextChannelId s
    = (Ret next,
       mk_impl (m_connection s) next (<[next := []]> (m_open_channels s))
               (m_free_channels s) (m_consumer_channel_map s))
    ∧ m_open_channels s !! next = None
    ∧ 0 ≤ next < uint16_modulus.
Proof.
  intros Hmax Hroom.
  assert (Hsize : Z.of_nat (size (m_open_channels s)) < uint16_modulus).
  { unfold channel_bound, uint16_max, uint16_modulus in *. case_decide; lia. }
  destruct (probe_next_channel_id_stops (m_next_channel_id s) _ Hsize) as [next Hprobe].
  destruct (probe_next_channel_id_Some _ _ _ _ Hprobe) as [Hfree Hrange].
  exists next. split; [| done].
  unfold GetNextChannelId, channel_bound in *.
  rewrite (bind_Ret _ _ s s (channel_max (m_connection s))) by reflexivity.
  rewrite (bind_Ret _ _ s s s) by reflexivity.
  rewrite (bind_Ret _ _ s s tt).
  - rewrite Hprobe. destruct s as [conn nxt open free registry].
    unfold set_open_channels, set_next_channel_id. unfold_run.
    by rewrite (std_map_insert_fresh _ _ _ Hfree).
  - case_decide as Hz.
    + rewrite Hz. change (0 =? 0) with true. cbv iota.
      by rewrite (proj2 (Z.leb_gt _ _) Hroom).
    + destruct (Z.eqb_spec 0 (channel_max (m_connection s))); [lia |].
      by rewrite (proj2 (Z.leb_gt _ _) Hroom).
Qed.

Lemma probe_next_channel_id_first_free (next : amqp_channel_t)
    (open : gmap Z frame_queue_t) :
  open !! ((next + 1) `mod` uint16_modulus) = None →
  probe_next_channel_id (Z.to_nat uint16_modulus) next open
  = Some ((next + 1) `mod` uint16_modulus).
Proof.
  intros Hfree.
  replace (Z.to_nat uint16_modulus) with (S (Z.to_nat (uint16_modulus - 1)))
    by (unfold uint16_modulus; lia).
  cbn [probe_next_channel_id]. rewrite Hfree.
  by rewrite bool_decide_eq_false_2 by (by intros [? ?]).
Qed.

Lemma GetNextChannelId_first_free (s : ChannelImpl) :
  Z.of_nat (size (m_open_channels s)) < channel_bound (channel_max (m_connection s)) →
  m_open_channels s !! ((m_next_channel_id s + 1) `mod` uint16_modulus) = None →
  (GetNextChannelId s).1 = Ret ((m_next_channel_id s + 1) `mod` uint16_modulus).
Proof.
  intros Hroom Hfree. unfold GetNextChannelId, channel_bound in *.
  rewrite (bind_Ret _ _ s s (channel_max (m_connection s))) by reflexivity.
  rewrite (bind_Ret _ _ s s s) by reflexivity.
  rewrite (bind_Ret _ _ s s tt).
  - by rewrite (probe_next_channel_id_first_free _ _ Hfree).
  - case_decide as Hz.
    + rewrite Hz. change (0 =? 0) with true. cbv iota.
      by rewrite (proj2 (Z.leb_gt _ _) Hroom).
    + destruct (Z.eqb_spec 0 (channel_max (m_connection s))); [lia |].
      by rewrite (proj2 (Z.leb_gt _ _) Hroom).
Qed.

Lemma GetNextChannelId_fresh_id (s s' : ChannelImpl) (next : amqp_channel_t) :
  GetNextChannelId s = (Ret next, s') →
  m_open_channels s !! next = None
  ∧ m_open_channels s' = <[next := []]> (m_open_channels s).
Proof.
  unfold GetNextChannelId.
  rewrite (bind_Ret _ _ s s (channel_max (m_connection s))) by reflexivity.
  rewrite (bind_Ret _ _ s s s) by reflexivity.
  unfold mbind at 1. unfold M_bind.
  match goal with |- context [match ?g s with _ => _ end] => destruct (g s) as [[[] | e |] s0] eqn:Hguard end;
    try discriminate.
  assert (s0 = s) as ->.
  { repeat match type of Hguard with
           | context [if ?b then _ else _] => destruct b
           end; unfold throw, mret, M_ret in Hguard; congruence. }
  destruct (probe_next_channel_id _ _ _) as [n |] eqn:Hprobe; [| discriminate].
  destruct (probe_next_channel_id_Some _ _ _ _ Hprobe) as [Hfree _].
  unfold_run. unfold set_open_channels, set_next_channel_id. simpl_members.
  intros [= <- <-]. simpl_members. by rewrite (std_map_insert_fresh _ _ _ Hfree).
Qed.

Section Acquire.

Variable DoRpcOnChannel : amqp_channel_t → Z → list Z → M amqp_frame_t.

(** The connections on which the broker answers an RPC as expected. *)
Variable answering : amqp_connection_state_t → Prop.

(** On such a connection an RPC returns, leaves the connection such, and
    neither opens nor closes a channel nor touches the pool. *)
Hypothesis DoRpcOnChannel_returns : ∀ ch method_id expected s,
  answering (m_connection s) →
  ∃ f s', DoRpcOnChannel ch method_id expected s = (Ret f, s')
          ∧ same_allocator_state s s'
          ∧ answering (m_connection s').

Lemma CreateNewChannel_too_many (s : ChannelImpl) :
  channel_bound (channel_max (m_connection s)) ≤ Z.of_nat (size (m_open_channels s)) →
  CreateNewChannel DoRpcOnChannel s
  = (Throw (runtime_error (Literal "Too many channels open")), s).
Proof.
  intros Hfull. unfold CreateNewChannel. apply bind_Throw.
  by apply GetNextChannelId_too_many.
Qed.

Lemma CreateNewChannel_allocates (s : ChannelImpl) :
  answering (m_connection s) →
  channel_max (m_connection s) ≤ uint16_max →
  Z.of_nat (size (m_open_channels s)) < channel_bound (channel_max (m_connection s)) →
  ∃ next s',
    CreateNewChannel DoRpcOnChannel s = (Ret next, s')
    ∧ GetNextChannelId s
      = (Ret next, mk_impl (m_connection s) next (<[next := []]> (m_open_channels s))
                     (m_free_channels s) (m_consumer_channel_map s))
    ∧ m_open_channels s !! next = None
    ∧ dom (m_open_channels s') = {[ next ]} ∪ dom (m_open_channels s)
    ∧ m_next_channel_id s' = next
    ∧ m_free_channels s' = m_free_channels s
    ∧ channel_max (m_connection s') = channel_max (m_connection s)
    ∧ answering (m_connection s').
Proof.
  intros Hans Hmax Hroom.
  destruct (GetNextChannelId_allocates s Hmax Hroom) as (next & Hnext & Hfree & _).
  set (s1 := mk_impl _ _ _ _ _) in Hnext.
  destruct (DoRpcOnChannel_returns next AMQP_CHANNEL_OPEN_METHOD
              [AMQP_CHANNEL_OPEN_OK_METHOD] s1 Hans)
    as (f2 & s2 & Hopen & (Hdom2 & Hnext2 & Hfree2 & Hmax2) & Hans2).
  destruct (DoRpcOnChannel_returns next AMQP_CONFIRM_SELECT_METHOD
              [AMQP_CONFIRM_SELECT_OK_METHOD] s2 Hans2)
    as (f3 & s3 & Hconfirm & (Hdom3 & Hnext3 & Hfree3 & Hmax3) & Hans3).
  exists next, s3. split.
  { unfold CreateNewChannel.
    rewrite (bind_Ret _ _ _ _ _ Hnext), (bind_Ret _ _ _ _ _ Hopen),
      (bind_Ret _ _ _ _ _ Hconfirm). reflexivity. }
  split; [done |]. split; [done |].
  rewrite Hdom3, Hdom2, Hnext3, Hnext2, Hfree3, Hfree2, Hmax3, Hmax2.
  subst s1. simpl_members. by rewrite dom_insert_L.
Qed.

(** [n] acquisitions in a row while the pool is empty and the table has
    room for them. *)
Lemma GetChannel_times_allocates (n : nat) (s : ChannelImpl) :
  answering (m_connection s) →
  channel_max (m_connection s) ≤ uint16_max →
  m_free_channels s = [] →
  Z.of_nat (size (m_open_channels s)) + Z.of_nat n
    ≤ channel_bound (channel_max (m_connection s)) →
  ∃ ids s',
    GetChannel_times DoRpcOnChannel n s = (Ret ids, s')
    ∧ length ids = n
    ∧ NoDup ids
    ∧ (∀ c, c ∈ ids → m_open_channels s !! c = None)
    ∧ dom (m_open_channels s') = list_to_set ids ∪ dom (m_open_channels s)
    ∧ m_free_channels s' = []
    ∧ channel_max (m_connection s') = channel_max (m_connection s)
    ∧ answering (m_connection s').
Proof.
  revert s. induction n as [| n IH]; intros s Hans Hmax Hpool Hroom.
  { exists [], s. repeat split; try done.
    - constructor.
    - intros c Hc. by apply elem_of_nil in Hc.
    - by rewrite list_to_set_nil, (left_id_L ∅ (∪)). }
  destruct (CreateNewChannel_allocates s Hans Hmax ltac:(lia))
    as (c & s1 & Hc & _ & Hfresh & Hdom1 & _ & Hpool1 & Hmax1 & Hans1).
  assert (Hsize1 : size (m_open_channels s1) = S (size (m_open_channels s))).
  { rewrite <- !size_dom, Hdom1, size_union, size_singleton; [done |].
    apply disjoint_singleton_l. by apply not_elem_of_dom. }
  destruct (IH s1 Hans1 ltac:(by rewrite Hmax1) ltac:(by rewrite Hpool1, Hpool)
              ltac:(rewrite Hmax1, Hsize1; lia))
    as (cs & s2 & Hcs & Hlen & Hnodup & Hfresh2 & Hdom2 & Hpool2 & Hmax2 & Hans2).
  exists (c :: cs), s2. split.
  { cbn [GetChannel_times].
    assert (Hget : GetChannel DoRpcOnChannel s = (Ret c, s1)).
    { unfold GetChannel. rewrite (bind_Ret _ _ s s s) by reflexivity.
      by rewrite Hpool. }
    rewrite (bind_Ret _ _ _ _ _ Hget), (bind_Ret _ _ _ _ _ Hcs). reflexivity. }
  assert (Hc_notin : c ∉ cs).
  { intros Hin. specialize (Hfresh2 c Hin).
    apply not_elem_of_dom in Hfresh2. rewrite Hdom1 in Hfresh2.
    by apply Hfresh2, elem_of_union_l, elem_of_singleton. }
  repeat split.
  - simpl. by rewrite Hlen.
  - by constructor.
  - intros c' [-> | Hin]%elem_of_cons; [done |].
    specialize (Hfresh2 c' Hin). apply not_elem_of_dom in Hfresh2.
    apply not_elem_of_dom. rewrite Hdom1 in Hfresh2.
    intros Hc'. by apply Hfresh2, elem_of_union_r.
  - rewrite Hdom2, Hdom1. apply set_eq. intros x.
    rewrite !elem_of_union, !elem_of_list_to_set, elem_of_cons, elem_of_singleton.
    tauto.
  - done.
  - by rewrite Hmax2.
  - done.
Qed.

Lemma GetChannel_times_S (n : nat) (s s1 s2 : ChannelImpl) (c : amqp_channel_t)
    (cs : list amqp_channel_t) :
  GetChannel DoRpcOnChannel s = (Ret c, s1) →
  GetChannel_times DoRpcOnChannel n s1 = (Ret cs, s2) →
  GetChannel_times DoRpcOnChannel (S n) s = (Ret (c :: cs), s2).
Proof.
  intros Hc Hcs. cbn [GetChannel_times].
  rewrite (bind_Ret _ _ _ _ _ Hc), (bind_Ret _ _ _ _ _ Hcs). reflexivity.
Qed.

Lemma GetChannel_empty_pool (s : ChannelImpl) :
  m_free_channels s = [] →
  GetChannel DoRpcOnChannel s = CreateNewChannel DoRpcOnChannel s.
Proof.
  intros Hpool. unfold GetChannel.
  rewrite (bind_Ret _ _ s s s) by reflexivity. by rewrite Hpool.
Qed.

Lemma GetChannel_from_pool (s : ChannelImpl) (front : amqp_channel_t)
    (rest : list amqp_channel_t) :
  m_free_channels s = front :: rest →
  GetChannel DoRpcOnChannel s = (Ret front, set_free_channels rest s).
Proof.
  intros Hpool. unfold GetChannel.
  rewrite (bind_Ret _ _ s s s) by reflexivity. by rewrite Hpool.
Qed.

(** One acquisition from an empty pool when the id after the counter is
    not in the table. *)
Lemma GetChannel_next_id (s : ChannelImpl) :
  answering (m_connection s) →
  channel_max (m_connection s) ≤ uint16_max →
  m_free_channels s = [] →
  Z.of_nat (size (m_open_channels s)) < channel_bound (channel_max (m_connection s)) →
  m_open_channels s !! ((m_next_channel_id s + 1) `mod` uint16_modulus) = None →
  ∃ s',
    GetChannel DoRpcOnChannel s
    = (Ret ((m_next_channel_id s + 1) `mod` uint16_modulus), s')
    ∧ dom (m_open_channels s')
      = {[ (m_next_channel_id s + 1) `mod` uint16_modulus ]} ∪ dom (m_open_channels s)
    ∧ size (m_open_channels s') = S (size (m_open_channels s))
    ∧ m_next_channel_id s' = (m_next_channel_id s + 1) `mod` uint16_modulus
    ∧ m_free_channels s' = []
    ∧ channel_max (m_connection s') = channel_max (m_connection s)
    ∧ answering (m_connection s').
Proof.
  intros Hans Hmax Hpool Hroom Hfree.
  destruct (CreateNewChannel_allocates s Hans Hmax Hroom)
    as (c & s1 & Hc & Hid & Hfresh & Hdom1 & Hnext1 & Hpool1 & Hmax1 & Hans1).
  pose proof (GetNextChannelId_first_free s Hroom Hfree) as Hfirst.
  rewrite Hid in Hfirst. injection Hfirst as ->.
  exists s1. rewrite (GetChannel_empty_pool s Hpool).
  repeat split; try done.
  - rewrite <- !size_dom, Hdom1, size_union, size_singleton; [done |].
    apply disjoint_singleton_l. by apply not_elem_of_dom.
  - by rewrite Hpool1.
Qed.

Lemma ChannelImpl_new_table (conn : amqp_connection_state_t) :
  m_open_channels (ChannelImpl_new conn) = {[ 0 := [] ]}.
Proof. reflexivity. Qed.

(** C4 (amended): the bound is on the number of entries of the
    open-channel table, and channel 0 is one of them.  On a connection
    whose broker advertises the maximum [M] (a 16-bit value) and answers
    every RPC, with [bound] = [M] when [M > 0] and 65535 when [M = 0]:
    from the fresh state the first [bound - 1] calls of [GetChannel]
    return ids that are pairwise distinct and different from 0, and the
    call after them throws "Too many channels open" and changes nothing;
    and whenever [GetChannel] allocates (the pool is empty), the id it
    returns was not in the open-channel table. *)
Theorem GetChannel_table_bound (conn : amqp_connection_state_t) :
  answering conn →
  0 ≤ channel_max conn ≤ uint16_max →
  (∃ ids s',
     GetChannel_times DoRpcOnChannel
       (Z.to_nat (channel_bound (channel_max conn) - 1)) (ChannelImpl_new conn)
     = (Ret ids, s')
     ∧ Z.of_nat (length ids) = channel_bound (channel_max conn) - 1
     ∧ NoDup ids
     ∧ (0 ∉ ids)
     ∧ GetChannel DoRpcOnChannel s'
       = (Throw (runtime_error (Literal "Too many channels open")), s'))
  ∧ (∀ s c s',
       m_free_channels s = [] →
       GetChannel DoRpcOnChannel s = (Ret c, s') →
       m_open_channels s !! c = None).
Proof.
  intros Hans [Hmax0 Hmax]. split.
  - assert (Hbound : 1 ≤ channel_bound (channel_max conn)).
    { unfold channel_bound, uint16_max. case_decide; lia. }
    destruct (GetChannel_times_allocates
                (Z.to_nat (channel_bound (channel_max conn) - 1))
                (ChannelImpl_new conn) Hans Hmax eq_refl)
      as (ids & s' & Hrun & Hlen & Hnodup & Hfresh & Hdom & Hpool & Hmax' & _).
    { rewrite ChannelImpl_new_table, map_size_singleton.
      cbn [ChannelImpl_new m_connection]. lia. }
    exists ids, s'. split; [done |]. split; [lia |]. split; [done |].
    split.
    { intros Hin. specialize (Hfresh 0 Hin).
      by rewrite ChannelImpl_new_table, lookup_singleton_eq in Hfresh. }
    rewrite (GetChannel_empty_pool s' Hpool).
    apply CreateNewChannel_too_many.
    rewrite Hmax'. cbn [ChannelImpl_new m_connection].
    rewrite <- size_dom, Hdom, size_union, size_list_to_set, size_dom,
      ChannelImpl_new_table, map_size_singleton; [lia | done |].
    intros c Hc1 Hc2. rewrite elem_of_list_to_set in Hc1.
    specialize (Hfresh c Hc1). by apply not_elem_of_dom in Hfresh.
  - intros s c s' Hpool. rewrite (GetChannel_empty_pool s Hpool).
    unfold CreateNewChannel.
    intros (c1 & s1 & Hid & Hrest)%bind_Ret_inv.
    apply bind_Ret_inv in Hrest as (f2 & s2 & _ & Hrest).
    apply bind_Ret_inv in Hrest as (f3 & s3 & _ & Hrest).
    injection Hrest as <- _.
    by destruct (GetNextChannelId_fresh_id _ _ _ Hid).
Qed.

(** C5 (amended): on a fresh connection with [maxChannels = 0] whose
    broker answers every RPC, three successive calls of [GetChannel]
    return the ids 2, 3 and 4 (the counter starts at 1 and is incremented
    before it is looked up); after [ReturnChannel 2] the next
    [GetChannel] returns 2 and touches neither the connection, the id
    counter nor the open-channel table.  Whenever the pool is not empty
    [GetChannel] returns its front id and only removes it from the
    pool. *)
Theorem GetChannel_reuses_returned_channel (conn : amqp_connection_state_t) :
  answering conn →
  channel_max conn = 0 →
  (∃ s3,
     GetChannel_times DoRpcOnChannel 3 (ChannelImpl_new conn) = (Ret [2; 3; 4], s3)
     ∧ (ReturnChannel 2;; GetChannel DoRpcOnChannel) s3 = (Ret 2, s3))
  ∧ (∀ s front rest,
       m_free_channels s = front :: rest →
       GetChannel DoRpcOnChannel s = (Ret front, set_free_channels rest s)).
Proof.
  intros Hans Hmax. split; [| apply GetChannel_from_pool].
  assert (Hbound : channel_bound 0 = 65535) by reflexivity.
  destruct (GetChannel_next_id (ChannelImpl_new conn) Hans)
    as (s1 & Hrun1 & Hdom1 & Hsize1 & Hnext1 & Hpool1 & Hmax1 & Hans1);
    [cbn [ChannelImpl_new m_connection]; rewrite Hmax; done | done
    | cbn [ChannelImpl_new m_connection]; rewrite Hmax, Hbound; done | done |].
  change ((m_next_channel_id (ChannelImpl_new conn) + 1) `mod` uint16_modulus)
    with 2 in *.
  cbn [ChannelImpl_new m_connection] in Hmax1. rewrite Hmax in Hmax1.
  rewrite ChannelImpl_new_table, ?map_size_singleton, ?dom_singleton_L in *.
  destruct (GetChannel_next_id s1 Hans1)
    as (s2 & Hrun2 & Hdom2 & Hsize2 & Hnext2 & Hpool2 & Hmax2 & Hans2);
    [by rewrite Hmax1 | done | rewrite Hmax1, Hbound, Hsize1; lia
    | apply not_elem_of_dom; rewrite Hdom1, Hnext1;
      change ((2 + 1) `mod` uint16_modulus) with 3; set_unfold; lia |].
  rewrite Hnext1 in *. change ((2 + 1) `mod` uint16_modulus) with 3 in *.
  destruct (GetChannel_next_id s2 Hans2)
    as (s3 & Hrun3 & Hdom3 & Hsize3 & Hnext3 & Hpool3 & Hmax3 & Hans3);
    [by rewrite Hmax2, Hmax1 | done | rewrite Hmax2, Hmax1, Hbound, Hsize2, Hsize1; lia
    | apply not_elem_of_dom; rewrite Hdom2, Hdom1, Hnext2;
      change ((3 + 1) `mod` uint16_modulus) with 4; set_unfold; lia |].
  rewrite Hnext2 in *. change ((3 + 1) `mod` uint16_modulus) with 4 in *.
  exists s3. split.
  - apply (GetChannel_times_S _ _ _ _ _ _ Hrun1).
    apply (GetChannel_times_S _ _ _ _ _ _ Hrun2).
    by apply (GetChannel_times_S _ _ _ _ _ _ Hrun3).
  - rewrite (bind_Ret _ _ s3 (set_free_channels [2] s3) tt)
      by (unfold ReturnChannel, modify; by rewrite Hpool3).
    rewrite (GetChannel_from_pool _ 2 []) by reflexivity.
    destruct s3; simpl in *. by rewrite Hpool3.
Qed.

End Acquire.

(** ** The frame router *)

Lemma not_wait_forever (timeout : Z) :
  timeout ≠ microseconds_max → negb (timeout =? microseconds_max) = true.
Proof. intros Hne. by destruct (Z.eqb_spec timeout microseconds_max). Qed.

(** [select] reports a timeout: [GetNextFrameFromBroker] returns [false]
    and reads no frame. *)
Lemma GetNextFrameFromBroker_select_timeout (timeout errno : Z)
    (rest : list (Z * Z)) (s : ChannelImpl) :
  timeout ≠ microseconds_max →
  select_script (m_connection s) = (0, errno) :: rest →
  GetNextFrameFromBroker timeout s
  = (Ret None,
     set_connection
       (mk_conn (channel_max (m_connection s)) (send_status (m_connection s))
                (sent (m_connection s)) rest
                (select_log (m_connection s) ++ [timeout])
                (wait_script (m_connection s)) (clock (m_connection s))) s).
Proof.
  intros Hne Hscript. unfold GetNextFrameFromBroker.
  rewrite (bind_Ret _ _ s s s) by reflexivity.
  cbn [GetNextFrameFromBroker_start]. rewrite (not_wait_forever _ Hne).
  unfold select. unfold mbind at 1. unfold M_bind. by rewrite Hscript.
Qed.

(** [select] reports the socket readable and the engine hands over a frame
    without an error: [GetNextFrameFromBroker] returns [true] with it. *)
Lemma GetNextFrameFromBroker_frame (timeout : Z) (sel : Z * Z) (w : Z * amqp_frame_t)
    (rest : list (Z * Z)) (wrest : list (Z * amqp_frame_t)) (s : ChannelImpl) :
  timeout ≠ microseconds_max →
  sel.1 ≠ 0 → sel.1 ≠ -1 → 0 ≤ w.1 →
  select_script (m_connection s) = sel :: rest →
  wait_script (m_connection s) = w :: wrest →
  GetNextFrameFromBroker timeout s
  = (Ret (Some w.2),
     set_connection
       (mk_conn (channel_max (m_connection s)) (send_status (m_connection s))
                (sent (m_connection s)) rest
                (select_log (m_connection s) ++ [timeout])
                wrest (clock (m_connection s))) s).
Proof.
  intros Hne Hsel0 Hsel1 Hw Hscript Hwait. unfold GetNextFrameFromBroker.
  rewrite (bind_Ret _ _ s s s) by reflexivity.
  cbn [GetNextFrameFromBroker_start]. rewrite (not_wait_forever _ Hne).
  unfold select, amqp_simple_wait_frame, CheckForError.
  unfold mbind, M_bind. rewrite Hscript. cbn [fst snd].
  destruct (Z.eqb_spec sel.1 0) as [? | _]; [done |].
  destruct (Z.eqb_spec sel.1 (-1)) as [? | _]; [done |].
  unfold set_connection at 1. simpl_members. rewrite Hwait.
  destruct (Z.ltb_spec w.1 0) as [? | _]; [lia |].
  destruct s as [conn nxt open free registry]. reflexivity.
Qed.

Lemma set_aside_by_after (ch : amqp_channel_t) (frame received_frame : amqp_frame_t)
    (open : gmap Z frame_queue_t) :
  set_aside_by ch frame open → set_aside_by ch frame (set_aside frame received_frame open).
Proof.
  intros (Hch & Hzero & Hopen). repeat split; [done | done |].
  intros Hne. unfold set_aside. destruct (Z.eqb_spec (channel frame) 0); [done |].
  rewrite lookup_alter_eq. destruct (Hopen Hne) as [q ->]. by eexists.
Qed.

Lemma set_aside_other (ch : amqp_channel_t) (frame received_frame : amqp_frame_t)
    (open : gmap Z frame_queue_t) :
  channel frame ≠ ch → set_aside frame received_frame open !! ch = open !! ch.
Proof.
  intros Hne. unfold set_aside. destruct (channel frame =? 0); [done |].
  by rewrite lookup_alter_ne.
Qed.

(** The routing part of a turn, for a caller's frame that sets frames aside. *)
Lemma route_set_aside (ch : amqp_channel_t) (frame received_frame : amqp_frame_t)
    (s : ChannelImpl) :
  set_aside_by ch frame (m_open_channels s) →
  (if channel frame =? 0 then
     if connection_close_frame frame
     then
       FinishCloseConnection;;
       throw (AmqpResponseServerException (decoded (payload_method frame))
                "ChannelImpl::GetNextFrameFromBrokerOnChannel")
     else mret tt
   else
     it ← GetChannelQueueOrThrow (channel frame);
     push_back it.1 received_frame) s
  = (Ret tt, set_open_channels (set_aside frame received_frame (m_open_channels s)) s).
Proof.
  intros (Hch & Hzero & Hopen). unfold set_aside.
  destruct (Z.eqb_spec (channel frame) 0) as [H0 | Hne].
  - rewrite (Hzero H0). by destruct s.
  - destruct (Hopen Hne) as [q Hq].
    unfold GetChannelQueueOrThrow, push_back. unfold_run. by rewrite Hq.
Qed.

Lemma int64_wrap_small (z : Z) : in_int64 z → int64_wrap z = z.
Proof. unfold in_int64, int64_wrap. intros Hz. rewrite Z.mod_small; lia. Qed.

Lemma fits_not_wait_forever (timeout : Z) :
  in_int64 (timeout * 1000) → timeout < microseconds_max.
Proof. unfold in_int64, microseconds_max. lia. Qed.

(** The 64-bit sum of a clock reading and a timeout in nanoseconds. *)
Lemma int64_wrap_add (a b : Z) : int64_wrap (a + int64_wrap b) = int64_wrap (a + b).
Proof.
  unfold int64_wrap. f_equal.
  replace (a + ((b + 2 ^ 63) `mod` 2 ^ 64 - 2 ^ 63) + 2 ^ 63)
    with (a + (b + 2 ^ 63) `mod` 2 ^ 64) by lia.
  rewrite Z.add_mod_idemp_r by lia. f_equal. lia.
Qed.

(** A turn of the loop of a wait with a timeout, up to the clock reading:
    the frame is read and set aside, and the reading is compared with
    [end_point]. *)
Lemma while_turn (ch : amqp_channel_t) (frame : amqp_frame_t)
    (timeout end_point timeout_left : Z) (fuel : nat) (r : round)
    (srest : list (Z * Z)) (wrest : list (Z * amqp_frame_t)) (crest : list Z)
    (s : ChannelImpl) :
  timeout ≠ microseconds_max →
  timeout_left ≠ microseconds_max →
  set_aside_by ch frame (m_open_channels s) →
  round_reads r →
  select_script (m_connection s) = round_select r :: srest →
  wait_script (m_connection s) = round_wait r :: wrest →
  clock (m_connection s) = round_now r :: crest →
  GetNextFrameFromBrokerOnChannel_while (S fuel) ch frame timeout end_point timeout_left s
  = if round_now r >=? end_point
    then (Ret (false, frame), after_round frame timeout_left r s)
    else GetNextFrameFromBrokerOnChannel_while fuel ch frame timeout end_point
           (int64_wrap (end_point - round_now r) `quot` 1000)
           (after_round frame timeout_left r s).
Proof.
  intros Hne Hleft Haside (Hsel0 & Hsel1 & Hwait) Hscript Hwscript Hclock.
  cbn [GetNextFrameFromBrokerOnChannel_while].
  rewrite (bind_Ret _ _ _ _ _
             (GetNextFrameFromBroker_frame _ _ _ _ _ _ Hleft Hsel0 Hsel1 Hwait
                Hscript Hwscript)).
  destruct (Z.eqb_spec (channel frame) ch) as [Heq | _];
    [by destruct Haside as [? _] |].
  match goal with
  | |- (_ ≫= _) ?s1 = _ =>
      pose proof (route_set_aside ch frame (round_wait r).2 s1) as Hroute
  end.
  unfold connection_close_frame in Hroute.
  rewrite (bind_Ret _ _ _ _ _ (Hroute Haside)).
  rewrite (not_wait_forever _ Hne).
  unfold steady_clock_now, set_open_channels, set_connection, after_round.
  unfold mbind at 1. unfold M_bind. simpl_members. rewrite Hclock, Hscript, Hwscript.
  simpl_members. unfold mret, M_ret.
  by destruct (round_now r >=? end_point).
Qed.

Section Deadline.

Variables (ch : amqp_channel_t) (frame : amqp_frame_t) (timeout start : Z).

(** The timeout in nanoseconds and the deadline are inside the 64-bit range
    of the clock. *)
Hypothesis timeout_fits : in_int64 (timeout * 1000).
Hypothesis deadline_fits : in_int64 (deadline timeout start).

Lemma end_point_deadline :
  int64_wrap (start + int64_wrap (timeout * 1000)) = deadline timeout start.
Proof.
  rewrite (int64_wrap_small (timeout * 1000)) by done.
  by rewrite int64_wrap_small.
Qed.

Lemma time_left_fits (now : Z) :
  start ≤ now < deadline timeout start → in_int64 (deadline timeout start - now).
Proof. unfold in_int64, deadline in *. lia. Qed.

Lemma budget_given (now : Z) :
  start ≤ now → budget timeout start now ≠ microseconds_max.
Proof.
  intros Hnow. pose proof (fits_not_wait_forever _ timeout_fits) as timeout_given.
  unfold budget, deadline.
  assert ((start + timeout * 1000 - now) `quot` 1000 ≤ (timeout * 1000) `quot` 1000)
    by (apply Z.quot_le_mono; lia).
  rewrite Z.quot_mul in * by lia. lia.
Qed.

Lemma while_select_timeout (fuel : nat) (timeout_left errno : Z)
    (rest : list (Z * Z)) (s : ChannelImpl) :
  timeout_left ≠ microseconds_max →
  select_script (m_connection s) = (0, errno) :: rest →
  GetNextFrameFromBrokerOnChannel_while (S fuel) ch frame timeout
    (deadline timeout start) timeout_left s
  = (Ret (false, frame),
     set_connection
       (mk_conn (channel_max (m_connection s)) (send_status (m_connection s))
                (sent (m_connection s)) rest
                (select_log (m_connection s) ++ [timeout_left])
                (wait_script (m_connection s)) (clock (m_connection s))) s).
Proof.
  intros Hleft Hscript. cbn [GetNextFrameFromBrokerOnChannel_while].
  by rewrite (bind_Ret _ _ _ _ _
                (GetNextFrameFromBroker_select_timeout _ _ _ _ Hleft Hscript)).
Qed.

(** A turn up to the clock reading: the frame is read and set aside. *)
Lemma while_round (fuel : nat) (timeout_left : Z) (r : round)
    (srest : list (Z * Z)) (wrest : list (Z * amqp_frame_t)) (crest : list Z)
    (s : ChannelImpl) :
  timeout_left ≠ microseconds_max →
  set_aside_by ch frame (m_open_channels s) →
  round_reads r →
  (round_now r < deadline timeout start → start ≤ round_now r) →
  select_script (m_connection s) = round_select r :: srest →
  wait_script (m_connection s) = round_wait r :: wrest →
  clock (m_connection s) = round_now r :: crest →
  GetNextFrameFromBrokerOnChannel_while (S fuel) ch frame timeout
    (deadline timeout start) timeout_left s
  = if round_now r >=? deadline timeout start
    then (Ret (false, frame), after_round frame timeout_left r s)
    else GetNextFrameFromBrokerOnChannel_while fuel ch frame timeout
           (deadline timeout start) (budget timeout start (round_now r))
           (after_round frame timeout_left r s).
Proof.
  intros Hleft Haside Hreads Hnow Hscript Hwscript Hclock.
  pose proof (fits_not_wait_forever _ timeout_fits) as timeout_given.
  rewrite (while_turn ch frame timeout (deadline timeout start) timeout_left fuel r
             srest wrest crest s ltac:(lia) Hleft Haside Hreads Hscript Hwscript Hclock).
  destruct (Z.geb_spec (round_now r) (deadline timeout start)) as [| Hearly]; [done |].
  unfold budget.
  by rewrite (int64_wrap_small _ (time_left_fits _ (conj (Hnow Hearly) Hearly))).
Qed.

(** Frames read in time and set aside, then the deadline: the loop
    returns [false], and every [select] was given the budget computed
    from the clock reading before it. *)
Lemma while_until_deadline (rounds : list round) (e : deadline_end) :
  ∀ (fuel : nat) (timeout_left : Z) (s : ChannelImpl)
    (srest : list (Z * Z)) (wrest : list (Z * amqp_frame_t)) (crest : list Z),
  (length rounds < fuel)%nat →
  timeout_left ≠ microseconds_max →
  (map round_wait rounds ++ ending_wait e ≠ [] →
   set_aside_by ch frame (m_open_channels s)) →
  Forall (round_in_time timeout start) rounds →
  ending_at (deadline timeout start) e →
  select_script (m_connection s) = map round_select rounds ++ ending_select e :: srest →
  wait_script (m_connection s) = map round_wait rounds ++ ending_wait e ++ wrest →
  clock (m_connection s) = map round_now rounds ++ ending_now e ++ crest →
  ∃ s',
    GetNextFrameFromBrokerOnChannel_while fuel ch frame timeout
      (deadline timeout start) timeout_left s
    = (Ret (false, frame), s')
    ∧ select_log (m_connection s')
      = select_log (m_connection s)
        ++ timeout_left :: map (λ r, budget timeout start (round_now r)) rounds
    ∧ m_open_channels s' !! ch = m_open_channels s !! ch.
Proof.
  induction rounds as [| r rounds IH];
    intros fuel timeout_left s srest wrest crest Hfuel Hleft Haside Hrounds Hend
      Hselect Hwait Hclock;
    (destruct fuel as [| fuel]; [simpl in Hfuel; lia |]).
  - destruct e as [errno | r];
      cbn [ending_select ending_wait ending_now ending_at map app length] in *.
    + eexists. split; [by apply (while_select_timeout _ _ errno srest) |]. done.
    + destruct Hend as [Hreads Hlate].
      specialize (Haside ltac:(done)).
      eexists. split; [| split].
      * rewrite (while_round _ _ _ _ _ _ _ Hleft Haside Hreads ltac:(lia)
                   Hselect Hwait Hclock).
        by rewrite (proj2 (Z.geb_le _ _) Hlate).
      * done.
      * simpl. apply set_aside_other. by destruct Haside.
  - apply Forall_cons in Hrounds as [[Hreads Htime] Hrounds].
    specialize (Haside ltac:(done)). simpl in Hselect, Hwait, Hclock.
    rewrite (while_round _ _ _ _ _ _ _ Hleft Haside Hreads ltac:(lia)
               Hselect Hwait Hclock).
    destruct (Z.geb_spec (round_now r) (deadline timeout start)) as [? | _]; [lia |].
    destruct (IH fuel (budget timeout start (round_now r))
                (after_round frame timeout_left r s) srest wrest crest)
      as (s' & Hrun & Hlog & Hopen).
    + simpl in Hfuel. lia.
    + apply budget_given. lia.
    + intros _. simpl. by apply set_aside_by_after.
    + done.
    + done.
    + simpl. by rewrite Hselect.
    + simpl. by rewrite Hwait.
    + simpl. by rewrite Hclock.
    + exists s'. split; [done |]. split.
      * rewrite Hlog. simpl. by rewrite <- app_assoc.
      * rewrite Hopen. simpl. apply set_aside_other. by destruct Haside.
Qed.

(** X17: [GetNextFrameOnChannel ch frame timeout] with a timeout whose
    deadline is inside the 64-bit nanosecond range of the clock, on an open
    channel with no buffered frame.  Either no frame is read at all, or the
    caller's frame holds another channel than [ch], one that is open or
    channel 0 without a connection close, so that the frames read are set
    aside.  When, after the frames read before the deadline, [select]
    reports the timeout or the clock reading taken after a read is at or
    past the deadline, the call returns [false] with the caller's frame
    untouched and throws nothing, the queue of [ch] is still empty, and the
    [select] calls were given the timeout and then, after every read, the
    time left until the deadline.  With no frame at all and [timeout = 0]
    this is the polling read. *)
Theorem GetNextFrameOnChannel_deadline (rounds : list round) (e : deadline_end)
    (s : ChannelImpl) (srest : list (Z * Z)) (wrest : list (Z * amqp_frame_t))
    (crest : list Z) :
  m_open_channels s !! ch = Some [] →
  (map round_wait rounds ++ ending_wait e ≠ [] →
   set_aside_by ch frame (m_open_channels s)) →
  Forall (round_in_time timeout start) rounds →
  ending_at (deadline timeout start) e →
  select_script (m_connection s) = map round_select rounds ++ ending_select e :: srest →
  wait_script (m_connection s) = map round_wait rounds ++ ending_wait e ++ wrest →
  clock (m_connection s) = start :: map round_now rounds ++ ending_now e ++ crest →
  ∃ s',
    GetNextFrameOnChannel ch frame timeout s = (Ret (false, frame), s')
    ∧ select_log (m_connection s')
      = select_log (m_connection s)
        ++ timeout :: map (λ r, budget timeout start (round_now r)) rounds
    ∧ m_open_channels s' !! ch = Some [].
Proof.
  intros Hqueue Haside Hrounds Hend Hselect Hwait Hclock.
  set (s1 := set_connection
               (mk_conn (channel_max (m_connection s)) (send_status (m_connection s))
                  (sent (m_connection s)) (select_script (m_connection s))
                  (select_log (m_connection s)) (wait_script (m_connection s))
                  (map round_now rounds ++ ending_now e ++ crest)) s).
  assert (Hfuel : (length rounds < S (length (wait_script (m_connection s1))))%nat).
  { subst s1. simpl. rewrite Hwait, length_app, length_map. lia. }
  pose proof (fits_not_wait_forever _ timeout_fits) as timeout_given.
  assert (Hleft : timeout ≠ microseconds_max) by lia.
  destruct (while_until_deadline rounds e _ timeout s1 srest wrest crest
              Hfuel Hleft Haside Hrounds Hend Hselect Hwait eq_refl)
    as (s' & Hrun & Hlog & Hopen).
  exists s'. split; [| split; [done |]].
  2: { rewrite Hopen. subst s1. by simpl. }
  unfold GetNextFrameOnChannel, GetChannelQueueOrThrow.
  rewrite (bind_Ret _ _ s s (ch, [])).
  2: { rewrite (bind_Ret _ _ s s s) by reflexivity. by rewrite Hqueue. }
  cbn [snd]. unfold GetNextFrameFromBrokerOnChannel.
  rewrite not_wait_forever by lia.
  rewrite (bind_Ret _ _ s s1 (deadline timeout start)).
  2: { unfold steady_clock_now. unfold mbind, M_bind.
       by rewrite Hclock, end_point_deadline. }
  by rewrite (bind_Ret _ _ s1 s1 s1) by reflexivity.
Qed.

End Deadline.

(** *** Frames read from the broker are routed on the caller's frame *)

(** When the caller's frame holds the requested channel, a wait-forever
    call returns the next frame the broker sends, whatever the channel of
    that frame and whatever it carries; only the script of the reads
    advances. *)
Lemma GetNextFrameFromBrokerOnChannel_returns_any_frame (ch : amqp_channel_t)
    (frame : amqp_frame_t) (w : Z * amqp_frame_t) (wrest : list (Z * amqp_frame_t))
    (s : ChannelImpl) :
  channel frame = ch →
  0 ≤ w.1 →
  wait_script (m_connection s) = w :: wrest →
  GetNextFrameFromBrokerOnChannel ch frame microseconds_max s
  = (Ret (true, w.2),
     set_connection
       (mk_conn (channel_max (m_connection s)) (send_status (m_connection s))
                (sent (m_connection s)) (select_script (m_connection s))
                (select_log (m_connection s)) wrest (clock (m_connection s))) s).
Proof.
  intros Hch Hstatus Hwait. unfold GetNextFrameFromBrokerOnChannel.
  change (negb (microseconds_max =? microseconds_max)) with false. cbv iota.
  rewrite (bind_Ret _ _ s s 0) by reflexivity.
  rewrite (bind_Ret _ _ s s s) by reflexivity.
  rewrite Hwait. cbn [length GetNextFrameFromBrokerOnChannel_while].
  unfold GetNextFrameFromBroker.
  unfold mbind at 1. unfold M_bind at 1.
  unfold mbind at 1. unfold M_bind at 1. unfold get at 1.
  cbn [GetNextFrameFromBroker_start].
  change (negb (microseconds_max =? microseconds_max)) with false. cbv iota.
  unfold amqp_simple_wait_frame, CheckForError. unfold_run. rewrite Hwait.
  destruct (Z.ltb_spec w.1 0); [lia |].
  rewrite Hch, Z.eqb_refl. by destruct s.
Qed.

(** C1 (the code at the failing inputs): the loop of
    [GetNextFrameFromBrokerOnChannel] compares [frame.channel], the channel
    of the caller's frame, and never the channel of [received_frame].
    A caller waiting on channel 1 for 1 ms whose frame still holds a frame
    of channel 2: the broker's frame for channel 1 is appended to the queue
    of channel 2 and the call returns [false].  A caller waiting on channel
    1 whose frame holds channel 1: the broker's frame for channel 2 is
    returned to it and the queue of channel 2 stays empty. *)
Theorem GetNextFrameOnChannel_routes_on_caller_frame :
  (let r := GetNextFrameOnChannel 1 (header_frame 2) 1000 router_example in
   r.1 = Ret (false, header_frame 2)
   ∧ m_open_channels r.2 !! 2 = Some [body_frame 1 "for channel 1"]
   ∧ m_open_channels r.2 !! 1 = Some [])
  ∧ (let r := GetNextFrameOnChannel 1 (header_frame 1) 1000 router_example_other in
     r.1 = Ret (true, body_frame 2 "for channel 2")
     ∧ m_open_channels r.2 !! 2 = Some []).
Proof. vm_compute. repeat split; reflexivity. Qed.

(** C7 (the code at the failing inputs): a caller waits on channel 1 for
    1 ms, with no frame buffered; the broker sends one frame, for channel 2,
    0.4 ms after the start and nothing more, so that the deadline passes
    with no frame for channel 1.  With the caller's frame holding channel 1
    the call returns [true] with the frame of channel 2, which is not queued
    for channel 2, and the [select] that would report the timeout is never
    made.  With the caller's frame holding channel 9, which is not open, the
    call throws "Channel not found" and the frame read is lost.  In neither
    case is the result the [false] of a wait that ran out of time. *)
Theorem GetNextFrameOnChannel_other_frame_ends_wait :
  (let r := GetNextFrameOnChannel 1 (header_frame 1) 1000 late_example in
   r.1 = Ret (true, body_frame 2 "later")
   ∧ m_open_channels r.2 !! 2 = Some []
   ∧ select_script (m_connection r.2) = [(0, 0)])
  ∧ (let r := GetNextFrameOnChannel 1 (header_frame 9) 1000 late_example in
     r.1 = Throw (runtime_error (Literal "Channel not found"))
     ∧ m_open_channels r.2 !! 2 = Some []
     ∧ wait_script (m_connection r.2) = []).
Proof. vm_compute. repeat split; reflexivity. Qed.

(** *** A buffered frame is read from a copy of the queue *)

(** A buffered frame that is not a channel close is returned and stays in
    the queue: the call changes no member. *)
Lemma GetNextFrameOnChannel_buffered (ch : amqp_channel_t) (frame front : amqp_frame_t)
    (rest : list amqp_frame_t) (timeout : Z) (s : ChannelImpl) :
  m_open_channels s !! ch = Some (front :: rest) →
  (AMQP_FRAME_METHOD =? frame_type front)
  && (AMQP_CHANNEL_CLOSE_METHOD =? id (payload_method front)) = false →
  GetNextFrameOnChannel ch frame timeout s = (Ret (true, front), s).
Proof.
  intros Hqueue Hdata. unfold GetNextFrameOnChannel, GetChannelQueueOrThrow.
  rewrite (bind_Ret _ _ s s (ch, front :: rest)).
  - cbn [snd]. by rewrite Hdata.
  - rewrite (bind_Ret _ _ s s s) by reflexivity. by rewrite Hqueue.
Qed.

(** C2 (the code at the failing input): with a header frame and a body
    frame buffered for channel 1, two calls of [GetNextFrameOnChannel 1]
    in a row both return the header frame, and the queue of channel 1 still
    holds both frames: the front frame is delivered twice and the body
    frame is not delivered. *)
Theorem GetNextFrameOnChannel_delivers_front_again :
  (first ← GetNextFrameOnChannel 1 (header_frame 0) microseconds_max;
   second ← GetNextFrameOnChannel 1 first.2 microseconds_max;
   mret (first, second)) buffered_example
  = (Ret ((true, header_frame 1), (true, header_frame 1)), buffered_example).
Proof.
  rewrite (bind_Ret _ _ _ _ _
             (GetNextFrameOnChannel_buffered 1 _ _ _ _ buffered_example eq_refl eq_refl)).
  cbn [snd].
  by rewrite (bind_Ret _ _ _ _ _
             (GetNextFrameOnChannel_buffered 1 _ _ _ _ buffered_example eq_refl eq_refl)).
Qed.

(** *** A channel close read from the broker *)

(** C3 (the code at the failing input): a caller waits on channel 1, its
    frame holding channel 1, and the broker sends the channel close for
    channel 1.  [GetNextFrameOnChannel] returns [true] with the close frame
    as the frame read; channel 1 stays in the open-channel table and no
    acknowledgement is sent. *)
Theorem GetNextFrameOnChannel_returns_channel_close :
  let r := GetNextFrameOnChannel 1 (header_frame 1) microseconds_max close_example in
  r.1 = Ret (true, channel_close_frame 1 "PRECONDITION_FAILED")
  ∧ m_open_channels r.2 !! 1 = Some []
  ∧ sent (m_connection r.2) = [].
Proof. vm_compute. repeat split; reflexivity. Qed.

(** The other path: a channel close found buffered makes
    [GetNextFrameOnChannel] run the close handshake and, the acknowledgement
    sent, throw. *)
Lemma GetNextFrameOnChannel_buffered_channel_close (ch : amqp_channel_t)
    (frame front : amqp_frame_t) (rest : list amqp_frame_t) (timeout : Z)
    (s : ChannelImpl) :
  m_open_channels s !! ch = Some (front :: rest) →
  frame_type front = AMQP_FRAME_METHOD →
  id (payload_method front) = AMQP_CHANNEL_CLOSE_METHOD →
  0 ≤ next_send_status s →
  GetNextFrameOnChannel ch frame timeout s
  = (Throw (AmqpResponseServerException (decoded (payload_method front))
              "ChannelImpl::GetNextFrameOnChannel"),
     (FinishCloseChannel ch s).2).
Proof.
  intros Hqueue Hty Hid Hsend. unfold GetNextFrameOnChannel, GetChannelQueueOrThrow.
  rewrite (bind_Ret _ _ s s (ch, front :: rest)).
  - cbn [snd]. rewrite Hty, Hid. cbn [Z.eqb Pos.eqb andb AMQP_FRAME_METHOD
      AMQP_CHANNEL_CLOSE_METHOD].
    change (0x00140028 =? 0x00140028) with true. cbv iota.
    unfold mbind, M_bind. rewrite FinishCloseChannel_run.
    destruct (Z.ltb_spec (next_send_status s) 0); [lia | reflexivity].
  - rewrite (bind_Ret _ _ s s s) by reflexivity. by rewrite Hqueue.
Qed.

(** ** The statements at concrete inputs *)

Lemma rpc_answered_returns (ch : amqp_channel_t) (method_id : Z) (expected : list Z)
    (s : ChannelImpl) :
  sends_succeed (m_connection s) →
  ∃ f s', rpc_answered ch method_id expected s = (Ret f, s')
          ∧ same_allocator_state s s'
          ∧ sends_succeed (m_connection s').
Proof.
  intros Hsends. unfold sends_succeed in *.
  destruct s as [[mx statuses log sel sel_log waits clk] nxt open free registry].
  simpl in Hsends. unfold rpc_answered, amqp_send_method, CheckForError.
  unfold_run.
  destruct statuses as [| status statuses]; simpl.
  - eexists _, _. split; [reflexivity |]. by repeat split.
  - apply Forall_cons in Hsends as [Hstatus Hsends].
    destruct (Z.ltb_spec status 0); [lia |].
    eexists _, _. split; [reflexivity |]. by repeat split.
Qed.

(** C4, as stated, fails: with the advertised maximum 2 the first
    [acquireChannel] on a fresh connection succeeds and the second one,
    not the third, throws "Too many channels open". *)
Lemma GetChannel_second_of_two_fails :
  (GetChannel_times rpc_answered 1 (ChannelImpl_new (quiet_connection 2))).1 = Ret [2]
  ∧ (GetChannel_times rpc_answered 2 (ChannelImpl_new (quiet_connection 2))).1
    = Throw (runtime_error (Literal "Too many channels open")).
Proof. split; vm_compute; reflexivity. Qed.

(** C5, as stated, fails: on a fresh connection with [maxChannels = 0] the
    first three ids are 2, 3 and 4, not 1, 2 and 3. *)
Lemma GetChannel_first_ids :
  (GetChannel_times rpc_answered 3 (ChannelImpl_new (quiet_connection 0))).1
  = Ret [2; 3; 4]
  ∧ (GetChannel_times rpc_answered 3 (ChannelImpl_new (quiet_connection 0))).1
    ≠ Ret [1; 2; 3].
Proof. split; vm_compute; [reflexivity | discriminate]. Qed.

Lemma GetChannel_table_bound_witness :
  sends_succeed (quiet_connection 2)
  ∧ 0 ≤ channel_max (quiet_connection 2) ≤ uint16_max
  ∧ (∃ ids s',
       GetChannel_times rpc_answered
         (Z.to_nat (channel_bound (channel_max (quiet_connection 2)) - 1))
         (ChannelImpl_new (quiet_connection 2))
       = (Ret ids, s')
       ∧ Z.of_nat (length ids) = channel_bound (channel_max (quiet_connection 2)) - 1
       ∧ NoDup ids
       ∧ (0 ∉ ids)
       ∧ GetChannel rpc_answered s'
         = (Throw (runtime_error (Literal "Too many channels open")), s'))
  ∧ (∀ s c s',
       m_free_channels s = [] →
       GetChannel rpc_answered s = (Ret c, s') →
       m_open_channels s !! c = None).
Proof.
  assert (Hsends : sends_succeed (quiet_connection 2)) by constructor.
  assert (Hmax : 0 ≤ channel_max (quiet_connection 2) ≤ uint16_max)
    by (split; discriminate).
  split; [exact Hsends |]. split; [exact Hmax |].
  exact (GetChannel_table_bound rpc_answered sends_succeed rpc_answered_returns
           (quiet_connection 2) Hsends Hmax).
Defined.

Lemma GetChannel_reuses_returned_channel_witness :
  sends_succeed (quiet_connection 0)
  ∧ channel_max (quiet_connection 0) = 0
  ∧ (∃ s3,
       GetChannel_times rpc_answered 3 (ChannelImpl_new (quiet_connection 0))
       = (Ret [2; 3; 4], s3)
       ∧ (ReturnChannel 2;; GetChannel rpc_answered) s3 = (Ret 2, s3))
  ∧ (∀ s front rest,
       m_free_channels s = front :: rest →
       GetChannel rpc_answered s = (Ret front, set_free_channels rest s)).
Proof.
  assert (Hsends : sends_succeed (quiet_connection 0)) by constructor.
  split; [exact Hsends |]. split; [reflexivity |].
  exact (GetChannel_reuses_returned_channel rpc_answered sends_succeed
           rpc_answered_returns (quiet_connection 0) Hsends eq_refl).
Defined.

Lemma CheckRpcReply_failure_replies_witness :
  (CheckRpcReply 1 channel_close_reply "declare" buffered_example
   = (Throw (AmqpResponseServerException "NOT_FOUND - no queue" "declare"),
      (FinishCloseChannel 1 buffered_example).2)
   ∧ m_open_channels
       (CheckRpcReply 1 channel_close_reply "declare" buffered_example).2 !! 1 = None
   ∧ sent (m_connection
             (CheckRpcReply 1 channel_close_reply "declare" buffered_example).2)
     = [mk_sent 1 AMQP_CHANNEL_CLOSE_OK_METHOD 0])
  ∧ (CheckRpcReply 3 channel_close_reply "declare" failing_send_example
     = (Throw (runtime_error
                 (ErrorString "ChannelImpl::FinishCloseChannel channel.close" 1)),
        (FinishCloseChannel 3 failing_send_example).2)
     ∧ m_open_channels
         (CheckRpcReply 3 channel_close_reply "declare" failing_send_example).2 !! 3
       = None
     ∧ sent (m_connection
               (CheckRpcReply 3 channel_close_reply "declare" failing_send_example).2)
       = [mk_sent 3 AMQP_CHANNEL_CLOSE_OK_METHOD (-1)])
  ∧ (CheckRpcReply 1 connection_close_reply "declare" buffered_example
     = (Throw (AmqpResponseServerException "CONNECTION_FORCED" "declare"),
        (FinishCloseConnection buffered_example).2)
     ∧ sent (m_connection
               (CheckRpcReply 1 connection_close_reply "declare" buffered_example).2)
       = [mk_sent 0 AMQP_CONNECTION_CLOSE_OK_METHOD 0])
  ∧ CheckRpcReply 1 no_reply "declare" buffered_example
    = (Throw (logic_error (Literal "Got a amqp_rpc_reply_t with no reply_type!")),
       buffered_example).
Proof.
  split; [| split; [| split]].
  - exact (proj1 (CheckRpcReply_failure_replies 1 channel_close_reply "declare"
                    buffered_example) eq_refl eq_refl).
  - exact (proj1 (CheckRpcReply_failure_replies 3 channel_close_reply "declare"
                    failing_send_example) eq_refl eq_refl).
  - exact (proj1 (proj2 (CheckRpcReply_failure_replies 1 connection_close_reply
                           "declare" buffered_example)) eq_refl eq_refl).
  - exact (proj2 (proj2 (CheckRpcReply_failure_replies 1 no_reply "declare"
                           buffered_example)) eq_refl).
Defined.

Lemma GetNextFrameOnChannel_deadline_witness :
  (∃ s',
     GetNextFrameOnChannel 1 (header_frame 0) 0 polling_example
     = (Ret (false, header_frame 0), s')
     ∧ select_log (m_connection s') = [0]
     ∧ m_open_channels s' !! 1 = Some [])
  ∧ (∃ s',
       GetNextFrameOnChannel 1 (header_frame 2) 1000 late_example
       = (Ret (false, header_frame 2), s')
       ∧ select_log (m_connection s') = [1000; 600]
       ∧ m_open_channels s' !! 1 = Some []).
Proof.
  split.
  - refine (GetNextFrameOnChannel_deadline 1 (header_frame 0) 0 0 _ _
              [] (select_times_out 0) polling_example [] [] [] eq_refl _ _ I
              eq_refl eq_refl eq_refl).
    + vm_compute. split; [discriminate | reflexivity].
    + vm_compute. split; [discriminate | reflexivity].
    + intros Hne. by destruct Hne.
    + constructor.
  - refine (GetNextFrameOnChannel_deadline 1 (header_frame 2) 1000 0 _ _
              [late_round] (select_times_out 0) late_example [] [] [] eq_refl _ _ I
              eq_refl eq_refl eq_refl).
    + vm_compute. split; [discriminate | reflexivity].
    + vm_compute. split; [discriminate | reflexivity].
    + intros _. split; [vm_compute; discriminate |].
      split; [reflexivity |]. intros _. eexists. reflexivity.
    + constructor; [| constructor].
      repeat split; vm_compute; discriminate.
Defined.

(** * Further properties of the member functions *)

(** ** [CheckRpcReply] and [CheckFrameForClose] *)

(** X1: [CheckRpcReply] returns to its caller exactly when the reply is of
    type [AMQP_RESPONSE_NORMAL], and then it has changed nothing; for every
    other reply it throws (it never waits on the broker). *)
Theorem CheckRpcReply_returns_iff_normal (ch : amqp_channel_t) (r : amqp_rpc_reply_t)
    (context : string) (s : ChannelImpl) :
  ((CheckRpcReply ch r context s).1 = Ret tt ↔ reply_type r = AMQP_RESPONSE_NORMAL)
  ∧ (reply_type r = AMQP_RESPONSE_NORMAL → CheckRpcReply ch r context s = (Ret tt, s))
  ∧ (reply_type r ≠ AMQP_RESPONSE_NORMAL →
     ∃ e, (CheckRpcReply ch r context s).1 = Throw e).
Proof.
  assert (Hnormal : reply_type r = AMQP_RESPONSE_NORMAL →
                    CheckRpcReply ch r context s = (Ret tt, s)).
  { intros Hty. unfold CheckRpcReply. by rewrite Hty. }
  assert (Hother : reply_type r ≠ AMQP_RESPONSE_NORMAL →
                   ∃ e, (CheckRpcReply ch r context s).1 = Throw e).
  { intros Hty. unfold CheckRpcReply.
    destruct (Z.eqb_spec (reply_type r) AMQP_RESPONSE_NORMAL); [done |].
    destruct (reply_type r =? AMQP_RESPONSE_NONE); [by eexists |].
    destruct (reply_type r =? AMQP_RESPONSE_LIBRARY_EXCEPTION); [by eexists |].
    destruct (reply_type r =? AMQP_RESPONSE_SERVER_EXCEPTION); [| by eexists].
    unfold mbind, M_bind.
    destruct (id (reply r) =? AMQP_CHANNEL_CLOSE_METHOD).
    - rewrite FinishCloseChannel_run.
      destruct (next_send_status s <? 0); by eexists.
    - destruct (id (reply r) =? AMQP_CONNECTION_CLOSE_METHOD); by eexists. }
  split; [| by split].
  split; [| by intros Hty; rewrite (Hnormal Hty)].
  intros Hret. destruct (decide (reply_type r = AMQP_RESPONSE_NORMAL)) as [| Hne]; [done |].
  destruct (Hother Hne) as [e He]. congruence.
Qed.

Lemma CheckRpcReply_returns_iff_normal_witness :
  reply_type normal_reply = AMQP_RESPONSE_NORMAL
  ∧ CheckRpcReply 1 normal_reply "declare" buffered_example = (Ret tt, buffered_example)
  ∧ reply_type library_reply ≠ AMQP_RESPONSE_NORMAL
  ∧ ∃ e, (CheckRpcReply 1 library_reply "declare" buffered_example).1 = Throw e.
Proof.
  assert (Hne : reply_type library_reply ≠ AMQP_RESPONSE_NORMAL) by discriminate.
  split; [reflexivity |]. split; [| split; [exact Hne |]].
  - exact (proj1 (proj2 (CheckRpcReply_returns_iff_normal 1 normal_reply "declare"
                           buffered_example)) eq_refl).
  - exact (proj2 (proj2 (CheckRpcReply_returns_iff_normal 1 library_reply "declare"
                           buffered_example)) Hne).
Defined.

(** X2: unless the reply is a server exception that closes the channel or
    the connection, [CheckRpcReply] sends nothing and changes no member:
    a library exception throws [AmqpResponseLibraryException] with the
    reply and the context, a server exception with any other method throws
    [AmqpResponseServerException], and the state is the one before the
    call. *)
Theorem CheckRpcReply_state_without_close (ch : amqp_channel_t) (r : amqp_rpc_reply_t)
    (context : string) (s : ChannelImpl) :
  (reply_type r = AMQP_RESPONSE_SERVER_EXCEPTION →
   id (reply r) ≠ AMQP_CHANNEL_CLOSE_METHOD ∧ id (reply r) ≠ AMQP_CONNECTION_CLOSE_METHOD) →
  (CheckRpcReply ch r context s).2 = s
  ∧ (reply_type r = AMQP_RESPONSE_LIBRARY_EXCEPTION →
     (CheckRpcReply ch r context s).1 = Throw (AmqpResponseLibraryException r context))
  ∧ (reply_type r = AMQP_RESPONSE_SERVER_EXCEPTION →
     (CheckRpcReply ch r context s).1
     = Throw (AmqpResponseServerException (decoded (reply r)) context)).
Proof.
  intros Hclose. unfold CheckRpcReply.
  destruct (Z.eqb_spec (reply_type r) AMQP_RESPONSE_NORMAL) as [Hty | _];
    [rewrite Hty; repeat split; discriminate |].
  destruct (Z.eqb_spec (reply_type r) AMQP_RESPONSE_NONE) as [Hty | _];
    [rewrite Hty; repeat split; discriminate |].
  destruct (Z.eqb_spec (reply_type r) AMQP_RESPONSE_LIBRARY_EXCEPTION) as [Hty | Hlib];
    [rewrite Hty; repeat split; discriminate |].
  destruct (Z.eqb_spec (reply_type r) AMQP_RESPONSE_SERVER_EXCEPTION) as [Hty | Hty];
    [| by repeat split].
  destruct (Hclose Hty) as [Hch Hconn].
  destruct (Z.eqb_spec (id (reply r)) AMQP_CHANNEL_CLOSE_METHOD); [done |].
  destruct (Z.eqb_spec (id (reply r)) AMQP_CONNECTION_CLOSE_METHOD); [done |].
  by repeat split.
Qed.

Lemma CheckRpcReply_state_without_close_witness :
  (reply_type library_reply = AMQP_RESPONSE_SERVER_EXCEPTION →
   id (reply library_reply) ≠ AMQP_CHANNEL_CLOSE_METHOD
   ∧ id (reply library_reply) ≠ AMQP_CONNECTION_CLOSE_METHOD)
  ∧ (CheckRpcReply 1 library_reply "declare" buffered_example).2 = buffered_example
  ∧ (CheckRpcReply 1 library_reply "declare" buffered_example).1
    = Throw (AmqpResponseLibraryException library_reply "declare").
Proof.
  assert (Hclose : reply_type library_reply = AMQP_RESPONSE_SERVER_EXCEPTION →
                   id (reply library_reply) ≠ AMQP_CHANNEL_CLOSE_METHOD
                   ∧ id (reply library_reply) ≠ AMQP_CONNECTION_CLOSE_METHOD)
    by discriminate.
  split; [exact Hclose |].
  pose proof (CheckRpcReply_state_without_close 1 library_reply "declare"
                buffered_example Hclose) as (Hstate & Hlib & _).
  split; [exact Hstate | exact (Hlib eq_refl)].
Defined.

Lemma CheckFrameForClose_channel_close (frame : amqp_frame_t) (ch : amqp_channel_t)
    (s : ChannelImpl) :
  channel_close_method frame →
  CheckFrameForClose frame ch s
  = ((if next_send_status s <? 0
      then Throw (runtime_error
                    (ErrorString "ChannelImpl::FinishCloseChannel channel.close"
                       (- next_send_status s)))
      else Throw (AmqpResponseServerException (decoded (payload_method frame))
                    "Consuming message")),
     (FinishCloseChannel ch s).2).
Proof.
  intros [Hty Hid]. unfold CheckFrameForClose. rewrite Hty, Hid.
  change (AMQP_FRAME_METHOD =? AMQP_FRAME_METHOD) with true.
  change (AMQP_CHANNEL_CLOSE_METHOD =? AMQP_CHANNEL_CLOSE_METHOD) with true.
  cbv iota. unfold mbind, M_bind. rewrite FinishCloseChannel_run.
  by destruct (next_send_status s <? 0).
Qed.

(** X3: [CheckFrameForClose frame ch] returns, with nothing changed, for
    every frame that is not a channel-close or connection-close method.  On
    a channel-close method it erases the entry of its argument [ch]
    (whatever channel the frame carries) and sends the acknowledgement on
    [ch], then throws [AmqpResponseServerException] with the context
    "Consuming message", or the transport error when the send failed.  On a
    connection-close method it sends the acknowledgement on channel 0 and
    throws. *)
Theorem CheckFrameForClose_cases (frame : amqp_frame_t) (ch : amqp_channel_t)
    (s : ChannelImpl) :
  (¬ channel_close_method frame → ¬ connection_close_method frame →
   CheckFrameForClose frame ch s = (Ret tt, s))
  ∧ (channel_close_method frame →
     CheckFrameForClose frame ch s
     = ((if next_send_status s <? 0
         then Throw (runtime_error
                       (ErrorString "ChannelImpl::FinishCloseChannel channel.close"
                          (- next_send_status s)))
         else Throw (AmqpResponseServerException (decoded (payload_method frame))
                       "Consuming message")),
        (FinishCloseChannel ch s).2)
     ∧ m_open_channels (CheckFrameForClose frame ch s).2 = delete ch (m_open_channels s)
     ∧ sent (m_connection (CheckFrameForClose frame ch s).2)
       = sent (m_connection s)
         ++ [mk_sent ch AMQP_CHANNEL_CLOSE_OK_METHOD (next_send_status s)])
  ∧ (connection_close_method frame →
     CheckFrameForClose frame ch s
     = (Throw (AmqpResponseServerException (decoded (payload_method frame))
                 "Consuming message"),
        (FinishCloseConnection s).2)
     ∧ sent (m_connection (CheckFrameForClose frame ch s).2)
       = sent (m_connection s)
         ++ [mk_sent 0 AMQP_CONNECTION_CLOSE_OK_METHOD (next_send_status s)]).
Proof.
  unfold channel_close_method, connection_close_method, CheckFrameForClose.
  split; [| split].
  - intros Hch Hconn.
    destruct (Z.eqb_spec (frame_type frame) AMQP_FRAME_METHOD) as [Hty | _]; [| done].
    destruct (Z.eqb_spec (id (payload_method frame)) AMQP_CHANNEL_CLOSE_METHOD);
      [by destruct Hch |].
    destruct (Z.eqb_spec (id (payload_method frame)) AMQP_CONNECTION_CLOSE_METHOD);
      [by destruct Hconn |].
    done.
  - intros Hclose. fold (CheckFrameForClose frame ch).
    rewrite (CheckFrameForClose_channel_close frame ch s Hclose),
      FinishCloseChannel_run.
    done.
  - intros [Hty Hid]. rewrite Hty, Hid.
    change (AMQP_FRAME_METHOD =? AMQP_FRAME_METHOD) with true.
    change (AMQP_CONNECTION_CLOSE_METHOD =? AMQP_CHANNEL_CLOSE_METHOD) with false.
    change (AMQP_CONNECTION_CLOSE_METHOD =? AMQP_CONNECTION_CLOSE_METHOD) with true.
    cbv iota. unfold mbind, M_bind. by rewrite FinishCloseConnection_run.
Qed.

Lemma CheckFrameForClose_cases_witness :
  (¬ channel_close_method (body_frame 1 "payload")
   ∧ ¬ connection_close_method (body_frame 1 "payload")
   ∧ CheckFrameForClose (body_frame 1 "payload") 1 buffered_example
     = (Ret tt, buffered_example))
  ∧ (channel_close_method (channel_close_frame 2 "NOT_FOUND")
     ∧ m_open_channels
         (CheckFrameForClose (channel_close_frame 2 "NOT_FOUND") 1 buffered_example).2
       = delete 1 (m_open_channels buffered_example)).
Proof.
  assert (H1 : ¬ channel_close_method (body_frame 1 "payload"))
    by (intros [Hty _]; discriminate Hty).
  assert (H2 : ¬ connection_close_method (body_frame 1 "payload"))
    by (intros [Hty _]; discriminate Hty).
  assert (H3 : channel_close_method (channel_close_frame 2 "NOT_FOUND"))
    by (split; reflexivity).
  split.
  - split; [exact H1 |]. split; [exact H2 |].
    exact (proj1 (CheckFrameForClose_cases (body_frame 1 "payload") 1 buffered_example)
             H1 H2).
  - split; [exact H3 |].
    exact (proj1 (proj2 (proj1 (proj2 (CheckFrameForClose_cases
                                         (channel_close_frame 2 "NOT_FOUND") 1
                                         buffered_example)) H3))).
Defined.

(** ** [GetNextFrameOnChannel]: errors and the close paths *)

(** X4: asking for a frame on a channel that has no entry in the
    open-channel table throws [std::runtime_error] "Channel not found"
    before anything else happens: no member changes, nothing is read from
    the broker, whatever the timeout. *)
Theorem GetNextFrameOnChannel_channel_not_found (ch : amqp_channel_t)
    (frame : amqp_frame_t) (timeout : Z) (s : ChannelImpl) :
  m_open_channels s !! ch = None →
  GetNextFrameOnChannel ch frame timeout s
  = (Throw (runtime_error (Literal "Channel not found")), s).
Proof.
  intros Hclosed. unfold GetNextFrameOnChannel, GetChannelQueueOrThrow.
  apply bind_Throw. rewrite (bind_Ret _ _ s s s) by reflexivity. by rewrite Hclosed.
Qed.

Lemma GetNextFrameOnChannel_channel_not_found_witness :
  m_open_channels close_example !! 7 = None
  ∧ GetNextFrameOnChannel 7 (header_frame 7) microseconds_max close_example
    = (Throw (runtime_error (Literal "Channel not found")), close_example).
Proof.
  split; [reflexivity |].
  exact (GetNextFrameOnChannel_channel_not_found 7 (header_frame 7) microseconds_max
           close_example eq_refl).
Defined.

(** X5: a channel-close method found at the front of the queue of [ch]
    makes [GetNextFrameOnChannel] erase the entry of [ch], with every frame
    buffered behind the close, and send the acknowledgement on [ch]; it then
    throws [AmqpResponseServerException] with the reason of the close, or
    the transport error when the send failed.  The frame is never
    returned. *)
Theorem GetNextFrameOnChannel_buffered_close (ch : amqp_channel_t)
    (frame front : amqp_frame_t) (rest : list amqp_frame_t) (timeout : Z)
    (s : ChannelImpl) :
  m_open_channels s !! ch = Some (front :: rest) →
  channel_close_method front →
  let r := GetNextFrameOnChannel ch frame timeout s in
  r.1 = (if next_send_status s <? 0
         then Throw (runtime_error
                       (ErrorString "ChannelImpl::FinishCloseChannel channel.close"
                          (- next_send_status s)))
         else Throw (AmqpResponseServerException (decoded (payload_method front))
                       "ChannelImpl::GetNextFrameOnChannel"))
  ∧ m_open_channels r.2 = delete ch (m_open_channels s)
  ∧ sent (m_connection r.2)
    = sent (m_connection s)
      ++ [mk_sent ch AMQP_CHANNEL_CLOSE_OK_METHOD (next_send_status s)]
  ∧ wait_script (m_connection r.2) = wait_script (m_connection s).
Proof.
  intros Hqueue [Hty Hid] r. subst r.
  unfold GetNextFrameOnChannel, GetChannelQueueOrThrow.
  rewrite (bind_Ret _ _ s s (ch, front :: rest)).
  2: { rewrite (bind_Ret _ _ s s s) by reflexivity. by rewrite Hqueue. }
  cbn [snd]. rewrite Hty, Hid.
  change (AMQP_FRAME_METHOD =? AMQP_FRAME_METHOD) with true.
  change (AMQP_CHANNEL_CLOSE_METHOD =? AMQP_CHANNEL_CLOSE_METHOD) with true.
  cbv iota beta. cbn [andb]. unfold mbind, M_bind. rewrite FinishCloseChannel_run.
  by destruct (next_send_status s <? 0).
Qed.

Lemma GetNextFrameOnChannel_buffered_close_witness :
  m_open_channels buffered_close_example !! 1
  = Some [channel_close_frame 1 "PRECONDITION_FAILED"; body_frame 1 "after"]
  ∧ channel_close_method (channel_close_frame 1 "PRECONDITION_FAILED")
  ∧ (GetNextFrameOnChannel 1 (header_frame 1) 0 buffered_close_example).1
    = Throw (AmqpResponseServerException "PRECONDITION_FAILED"
               "ChannelImpl::GetNextFrameOnChannel")
  ∧ m_open_channels (GetNextFrameOnChannel 1 (header_frame 1) 0 buffered_close_example).2
    = delete 1 (m_open_channels buffered_close_example).
Proof.
  assert (Hclose : channel_close_method (channel_close_frame 1 "PRECONDITION_FAILED"))
    by (split; reflexivity).
  split; [reflexivity |]. split; [exact Hclose |].
  pose proof (GetNextFrameOnChannel_buffered_close 1 (header_frame 1) _ _ 0
                buffered_close_example eq_refl Hclose) as (Hout & Htable & _).
  split; [exact Hout | exact Htable].
Defined.

(** With a timeout, when the clock can be read and [select] reports the
    socket readable, and waiting forever: the call whose caller's frame
    holds the requested channel returns the next frame the broker sends,
    and neither the table nor what is sent changes. *)
Lemma GetNextFrameFromBrokerOnChannel_returns_next_frame (ch : amqp_channel_t)
    (frame : amqp_frame_t) (timeout : Z) (w : Z * amqp_frame_t)
    (wrest : list (Z * amqp_frame_t)) (s : ChannelImpl) :
  channel frame = ch →
  reaches_read timeout (m_connection s) →
  wait_script (m_connection s) = w :: wrest →
  0 ≤ w.1 →
  ∃ s',
    GetNextFrameFromBrokerOnChannel ch frame timeout s = (Ret (true, w.2), s')
    ∧ m_open_channels s' = m_open_channels s
    ∧ send_status (m_connection s') = send_status (m_connection s)
    ∧ sent (m_connection s') = sent (m_connection s)
    ∧ wait_script (m_connection s') = wrest.
Proof.
  intros Hch Hreach Hwait Hstatus.
  destruct (decide (timeout = microseconds_max)) as [-> | Hne].
  { eexists. split;
      [exact (GetNextFrameFromBrokerOnChannel_returns_any_frame ch frame w wrest s
                Hch Hstatus Hwait) |].
    by destruct s. }
  destruct Hreach as [? | (Hclock & sel & srest & Hscript & Hsel0 & Hsel1)]; [done |].
  destruct (clock (m_connection s)) as [| start crest] eqn:Hreading; [done |].
  set (s1 := set_connection
               (mk_conn (channel_max (m_connection s)) (send_status (m_connection s))
                  (sent (m_connection s)) (select_script (m_connection s))
                  (select_log (m_connection s)) (wait_script (m_connection s))
                  crest) s).
  unfold GetNextFrameFromBrokerOnChannel. rewrite (not_wait_forever _ Hne).
  rewrite (bind_Ret _ _ s s1 (int64_wrap (start + int64_wrap (timeout * 1000))))
    by (unfold steady_clock_now; unfold mbind, M_bind; by rewrite Hreading).
  rewrite (bind_Ret _ _ s1 s1 s1) by reflexivity.
  cbn [GetNextFrameFromBrokerOnChannel_while].
  rewrite (bind_Ret _ _ _ _ _
             (GetNextFrameFromBroker_frame timeout sel w srest wrest s1 Hne Hsel0 Hsel1
                Hstatus Hscript Hwait)).
  rewrite Hch, Z.eqb_refl. eexists. split; [reflexivity |]. by destruct s.
Qed.

(** X6: a channel close that [GetNextFrameOnChannel] reads from the broker
    and returns as a frame is dealt with by [CheckFrameForClose].  On an
    open channel with no buffered frame, the caller's frame holding the
    requested channel, with any timeout for which the read is reached
    (waiting forever, or [select] reporting the socket readable): the two
    calls in a row erase the entry of the channel, send the acknowledgement
    and throw [AmqpResponseServerException] with the reason of the close and
    the context "Consuming message", or, when the send of the
    acknowledgement reports a transport error, that error. *)
Theorem GetNextFrameOnChannel_then_CheckFrameForClose (ch : amqp_channel_t)
    (frame : amqp_frame_t) (timeout : Z) (w : Z * amqp_frame_t)
    (wrest : list (Z * amqp_frame_t)) (s : ChannelImpl) :
  m_open_channels s !! ch = Some [] →
  channel frame = ch →
  reaches_read timeout (m_connection s) →
  wait_script (m_connection s) = w :: wrest →
  0 ≤ w.1 →
  channel_close_method w.2 →
  let r := (got ← GetNextFrameOnChannel ch frame timeout;
            CheckFrameForClose got.2 ch) s in
  r.1 = (if next_send_status s <? 0
         then Throw (runtime_error
                       (ErrorString "ChannelImpl::FinishCloseChannel channel.close"
                          (- next_send_status s)))
         else Throw (AmqpResponseServerException (decoded (payload_method w.2))
                       "Consuming message"))
  ∧ m_open_channels r.2 = delete ch (m_open_channels s)
  ∧ sent (m_connection r.2)
    = sent (m_connection s)
      ++ [mk_sent ch AMQP_CHANNEL_CLOSE_OK_METHOD (next_send_status s)]
  ∧ wait_script (m_connection r.2) = wrest.
Proof.
  intros Hqueue Hch Hreach Hwait Hstatus Hclose r. subst r.
  assert (Hget : GetNextFrameOnChannel ch frame timeout s
                 = GetNextFrameFromBrokerOnChannel ch frame timeout s).
  { unfold GetNextFrameOnChannel, GetChannelQueueOrThrow.
    rewrite (bind_Ret _ _ s s (ch, [])); [done |].
    rewrite (bind_Ret _ _ s s s) by reflexivity. by rewrite Hqueue. }
  destruct (GetNextFrameFromBrokerOnChannel_returns_next_frame ch frame timeout w wrest s
              Hch Hreach Hwait Hstatus)
    as (s1 & Hrun & Hopen & Hsend & Hsent & Hrest).
  rewrite (bind_Ret _ _ _ _ _ (eq_trans Hget Hrun)). cbn [snd].
  rewrite (CheckFrameForClose_channel_close w.2 ch s1 Hclose).
  assert (Hsame : next_send_status s1 = next_send_status s)
    by (unfold next_send_status; by rewrite Hsend).
  rewrite Hsame, FinishCloseChannel_run. cbn [fst snd]. simpl_members.
  unfold connection_after_send. simpl_members.
  fold (next_send_status s1). by rewrite Hopen, Hsent, Hrest, Hsame.
Qed.

Lemma GetNextFrameOnChannel_then_CheckFrameForClose_witness :
  (let r := (got ← GetNextFrameOnChannel 1 (header_frame 1) microseconds_max;
             CheckFrameForClose got.2 1) close_example in
   r.1 = Throw (AmqpResponseServerException "PRECONDITION_FAILED" "Consuming message")
   ∧ m_open_channels r.2 = delete 1 (m_open_channels close_example)
   ∧ sent (m_connection r.2) = [mk_sent 1 AMQP_CHANNEL_CLOSE_OK_METHOD 0]
   ∧ wait_script (m_connection r.2) = [])
  ∧ (let r := (got ← GetNextFrameOnChannel 1 (header_frame 1) 1000;
               CheckFrameForClose got.2 1) close_failing_send_example in
     r.1 = Throw (runtime_error
                    (ErrorString "ChannelImpl::FinishCloseChannel channel.close" 1))
     ∧ m_open_channels r.2 = delete 1 (m_open_channels close_failing_send_example)
     ∧ sent (m_connection r.2) = [mk_sent 1 AMQP_CHANNEL_CLOSE_OK_METHOD (-1)]
     ∧ wait_script (m_connection r.2) = []).
Proof.
  split.
  - refine (GetNextFrameOnChannel_then_CheckFrameForClose 1 (header_frame 1)
              microseconds_max (0, channel_close_frame 1 "PRECONDITION_FAILED") []
              close_example eq_refl eq_refl _ eq_refl _ _).
    + by left.
    + discriminate.
    + split; reflexivity.
  - refine (GetNextFrameOnChannel_then_CheckFrameForClose 1 (header_frame 1)
              1000 (0, channel_close_frame 1 "PRECONDITION_FAILED") []
              close_failing_send_example eq_refl eq_refl _ eq_refl _ _).
    + right. split; [discriminate |]. exists (1, 0), []. repeat split; discriminate.
    + discriminate.
    + split; reflexivity.
Defined.

(** ** Allocation, the pool and the life of a channel id *)

Lemma probe_next_channel_id_first (fuel : nat) (next n : amqp_channel_t)
    (open : gmap Z (list amqp_frame_t)) :
  probe_next_channel_id fuel next open = Some n →
  ∃ k, 1 ≤ k ≤ Z.of_nat fuel
       ∧ n = (next + k) `mod` uint16_modulus
       ∧ ∀ j, 1 ≤ j < k → is_Some (open !! ((next + j) `mod` uint16_modulus)).
Proof.
  revert next. induction fuel as [| fuel IH]; intros next Hprobe; [done |].
  cbn [probe_next_channel_id] in Hprobe. case_bool_decide as Hin.
  - destruct (IH _ Hprobe) as (k & Hk & Hn & Hbelow).
    rewrite Z.add_mod_idemp_l in Hn by (unfold uint16_modulus; lia).
    exists (k + 1). split; [lia |].
    split; [by replace (next + (k + 1)) with (next + 1 + k) by lia |].
    intros j Hj. destruct (decide (j = 1)) as [-> | Hne]; [done |].
    specialize (Hbelow (j - 1) ltac:(lia)).
    rewrite Z.add_mod_idemp_l in Hbelow by (unfold uint16_modulus; lia).
    by replace (next + 1 + (j - 1)) with (next + j) in Hbelow by lia.
  - injection Hprobe as <-. exists 1. split; [lia |]. split; [done |]. lia.
Qed.

Lemma GetNextChannelId_of_probe (s : ChannelImpl) (next : amqp_channel_t) :
  Z.of_nat (size (m_open_channels s)) < channel_bound (channel_max (m_connection s)) →
  probe_next_channel_id (Z.to_nat uint16_modulus) (m_next_channel_id s)
    (m_open_channels s) = Some next →
  GetNextChannelId s
  = (Ret next,
     mk_impl (m_connection s) next (<[next := []]> (m_open_channels s))
             (m_free_channels s) (m_consumer_channel_map s)).
Proof.
  intros Hroom Hprobe.
  destruct (probe_next_channel_id_Some _ _ _ _ Hprobe) as [Hfree _].
  unfold GetNextChannelId, channel_bound in *.
  rewrite (bind_Ret _ _ s s (channel_max (m_connection s))) by reflexivity.
  rewrite (bind_Ret _ _ s s s) by reflexivity.
  rewrite (bind_Ret _ _ s s tt).
  - rewrite Hprobe. destruct s as [conn nxt open free registry].
    unfold set_open_channels, set_next_channel_id. unfold_run.
    by rewrite (std_map_insert_fresh _ _ _ Hfree).
  - case_decide as Hz.
    + rewrite Hz. change (0 =? 0) with true. cbv iota.
      by rewrite (proj2 (Z.leb_gt _ _) Hroom).
    + destruct (Z.eqb_spec 0 (channel_max (m_connection s))); [lia |].
      by rewrite (proj2 (Z.leb_gt _ _) Hroom).
Qed.

Lemma GetNextChannelId_scan (s : ChannelImpl) :
  channel_max (m_connection s) ≤ uint16_max →
  Z.of_nat (size (m_open_channels s)) < channel_bound (channel_max (m_connection s)) →
  ∃ k, 1 ≤ k ≤ uint16_modulus
       ∧ GetNextChannelId s
         = (Ret ((m_next_channel_id s + k) `mod` uint16_modulus),
            mk_impl (m_connection s) ((m_next_channel_id s + k) `mod` uint16_modulus)
                    (<[(m_next_channel_id s + k) `mod` uint16_modulus := []]>
                       (m_open_channels s))
                    (m_free_channels s) (m_consumer_channel_map s))
       ∧ m_open_channels s !! ((m_next_channel_id s + k) `mod` uint16_modulus) = None
       ∧ ∀ j, 1 ≤ j < k →
              is_Some (m_open_channels s !! ((m_next_channel_id s + j) `mod` uint16_modulus)).
Proof.
  intros Hmax Hroom.
  assert (Hsize : Z.of_nat (size (m_open_channels s)) < uint16_modulus).
  { unfold channel_bound, uint16_max, uint16_modulus in *. case_decide; lia. }
  destruct (probe_next_channel_id_stops (m_next_channel_id s) _ Hsize) as [next Hprobe].
  destruct (probe_next_channel_id_first _ _ _ _ Hprobe) as (k & Hk & -> & Hbelow).
  destruct (probe_next_channel_id_Some _ _ _ _ Hprobe) as [Hfree _].
  exists k. split; [unfold uint16_modulus in *; lia |].
  split; [by apply GetNextChannelId_of_probe |]. by split.
Qed.

(** X7: when the table has room, the loop of [GetNextChannelId] ends: the
    id returned is the first one after the counter, counting upward and
    wrapping from 65535 to 0, that is not in the open-channel table (every
    id passed over is in the table); it is entered in the table with an
    empty queue and becomes the new value of the counter, and nothing else
    changes. *)
Theorem GetNextChannelId_scans_upward (s : ChannelImpl) :
  channel_max (m_connection s) ≤ uint16_max →
  Z.of_nat (size (m_open_channels s)) < channel_bound (channel_max (m_connection s)) →
  ∃ k, 1 ≤ k ≤ uint16_modulus
       ∧ GetNextChannelId s
         = (Ret ((m_next_channel_id s + k) `mod` uint16_modulus),
            mk_impl (m_connection s) ((m_next_channel_id s + k) `mod` uint16_modulus)
                    (<[(m_next_channel_id s + k) `mod` uint16_modulus := []]>
                       (m_open_channels s))
                    (m_free_channels s) (m_consumer_channel_map s))
       ∧ m_open_channels s !! ((m_next_channel_id s + k) `mod` uint16_modulus) = None
       ∧ ∀ j, 1 ≤ j < k →
              is_Some (m_open_channels s !! ((m_next_channel_id s + j) `mod` uint16_modulus)).
Proof.
  intros Hmax Hroom.
  assert (Hsize : Z.of_nat (size (m_open_channels s)) < uint16_modulus).
  { unfold channel_bound, uint16_max, uint16_modulus in *. case_decide; lia. }
  destruct (probe_next_channel_id_stops (m_next_channel_id s) _ Hsize) as [next Hprobe].
  destruct (probe_next_channel_id_first _ _ _ _ Hprobe) as (k & Hk & -> & Hbelow).
  destruct (probe_next_channel_id_Some _ _ _ _ Hprobe) as [Hfree _].
  exists k. split; [unfold uint16_modulus in *; lia |].
  split; [by apply GetNextChannelId_of_probe |]. by split.
Qed.

Lemma GetNextChannelId_scans_upward_witness :
  channel_max (m_connection wrap_example) ≤ uint16_max
  ∧ Z.of_nat (size (m_open_channels wrap_example))
    < channel_bound (channel_max (m_connection wrap_example))
  ∧ (GetNextChannelId wrap_example).1 = Ret 2
  ∧ ∃ k, 1 ≤ k ≤ uint16_modulus
         ∧ GetNextChannelId wrap_example
           = (Ret ((m_next_channel_id wrap_example + k) `mod` uint16_modulus),
              mk_impl (m_connection wrap_example)
                      ((m_next_channel_id wrap_example + k) `mod` uint16_modulus)
                      (<[(m_next_channel_id wrap_example + k) `mod` uint16_modulus := []]>
                         (m_open_channels wrap_example))
                      (m_free_channels wrap_example)
                      (m_consumer_channel_map wrap_example))
         ∧ m_open_channels wrap_example
             !! ((m_next_channel_id wrap_example + k) `mod` uint16_modulus) = None
         ∧ ∀ j, 1 ≤ j < k →
                is_Some (m_open_channels wrap_example
                           !! ((m_next_channel_id wrap_example + j) `mod` uint16_modulus)).
Proof.
  assert (Hmax : channel_max (m_connection wrap_example) ≤ uint16_max) by discriminate.
  assert (Hroom : Z.of_nat (size (m_open_channels wrap_example))
                  < channel_bound (channel_max (m_connection wrap_example)))
    by reflexivity.
  split; [exact Hmax |]. split; [exact Hroom |].
  split; [vm_compute; reflexivity |].
  exact (GetNextChannelId_scans_upward wrap_example Hmax Hroom).
Defined.

Lemma ReturnChannel_each_run (chs : list amqp_channel_t) (s : ChannelImpl) :
  ReturnChannel_each chs s = (Ret tt, set_free_channels (m_free_channels s ++ chs) s).
Proof.
  revert s. induction chs as [| ch chs IH]; intros s.
  - cbn [ReturnChannel_each]. rewrite app_nil_r. by destruct s.
  - cbn [ReturnChannel_each].
    rewrite (bind_Ret _ _ s (set_free_channels (m_free_channels s ++ [ch]) s) tt)
      by reflexivity.
    rewrite IH. destruct s. unfold set_free_channels. simpl_members.
    by rewrite <- app_assoc.
Qed.

Lemma GetChannel_times_from_pool (rpc : amqp_channel_t → Z → list Z → M amqp_frame_t)
    (pool rest : list amqp_channel_t) (s : ChannelImpl) :
  m_free_channels s = pool ++ rest →
  GetChannel_times rpc (length pool) s = (Ret pool, set_free_channels rest s).
Proof.
  revert s. induction pool as [| ch pool IH]; intros s Hpool.
  - simpl in *. rewrite <- Hpool. by destruct s.
  - cbn [length GetChannel_times].
    assert (Hget : GetChannel rpc s = (Ret ch, set_free_channels (pool ++ rest) s)).
    { unfold GetChannel. rewrite (bind_Ret _ _ s s s) by reflexivity.
      by rewrite Hpool. }
    rewrite (bind_Ret _ _ _ _ _ Hget).
    rewrite (bind_Ret _ _ _ _ _ (IH (set_free_channels (pool ++ rest) s) eq_refl)).
    by destruct s.
Qed.

(** X8: the pool is first-in first-out and is never checked.  After
    [ReturnChannel] of the ids of any list, as many calls of [GetChannel] as
    there are ids in the pool return the ids that were already there and
    then the returned ones, in the order of the returns, duplicates and
    unknown ids included; no RPC is made, and nothing but the pool, which is
    left empty, has changed. *)
Theorem GetChannel_returns_pool_in_order
    (rpc : amqp_channel_t → Z → list Z → M amqp_frame_t)
    (chs : list amqp_channel_t) (s : ChannelImpl) :
  (ReturnChannel_each chs;;
   GetChannel_times rpc (length (m_free_channels s) + length chs)) s
  = (Ret (m_free_channels s ++ chs), set_free_channels [] s).
Proof.
  rewrite (bind_Ret _ _ _ _ _ (ReturnChannel_each_run chs s)).
  rewrite <- length_app.
  rewrite (GetChannel_times_from_pool rpc (m_free_channels s ++ chs) []).
  - by destruct s.
  - destruct s. simpl. by rewrite app_nil_r.
Qed.

(** X9: closing a channel does not take its id out of the pool.  When [ch]
    is returned to an empty pool and then closed by [FinishCloseChannel],
    the next [GetChannel] hands out [ch] although [IsChannelOpen ch] is
    false, and a read on it throws "Channel not found". *)
Theorem GetChannel_hands_out_closed_channel
    (rpc : amqp_channel_t → Z → list Z → M amqp_frame_t)
    (ch : amqp_channel_t) (frame : amqp_frame_t) (timeout : Z) (s : ChannelImpl) :
  m_free_channels s = [] →
  0 ≤ next_send_status s →
  ∃ s',
    (ReturnChannel ch;; FinishCloseChannel ch;;
     c ← GetChannel rpc; open ← IsChannelOpen c; mret (c, open)) s
    = (Ret (ch, false), s')
    ∧ m_open_channels s' = delete ch (m_open_channels s)
    ∧ GetNextFrameOnChannel ch frame timeout s'
      = (Throw (runtime_error (Literal "Channel not found")), s').
Proof.
  intros Hpool Hsend.
  rewrite (bind_Ret _ _ s (set_free_channels [ch] s) tt)
    by (unfold ReturnChannel, modify; by rewrite Hpool).
  set (s1 := set_free_channels [ch] s).
  assert (Hclose : FinishCloseChannel ch s1 = (Ret tt, (FinishCloseChannel ch s1).2)).
  { rewrite FinishCloseChannel_run. cbn [snd].
    assert (next_send_status s1 = next_send_status s) as -> by (by destruct s).
    by destruct (Z.ltb_spec (next_send_status s) 0); [lia |]. }
  rewrite (bind_Ret _ _ _ _ _ Hclose).
  set (s2 := (FinishCloseChannel ch s1).2).
  assert (Hpool2 : m_free_channels s2 = [ch])
    by (subst s2; rewrite FinishCloseChannel_run; by destruct s).
  assert (Htable : m_open_channels s2 = delete ch (m_open_channels s))
    by (subst s2; rewrite FinishCloseChannel_run; by destruct s).
  assert (Hget : GetChannel rpc s2 = (Ret ch, set_free_channels [] s2)).
  { unfold GetChannel. rewrite (bind_Ret _ _ s2 s2 s2) by reflexivity.
    by rewrite Hpool2. }
  rewrite (bind_Ret _ _ _ _ _ Hget).
  set (s3 := set_free_channels [] s2).
  assert (Htable3 : m_open_channels s3 = delete ch (m_open_channels s))
    by (subst s3; by destruct s2).
  assert (Hgone : m_open_channels s3 !! ch = None)
    by (rewrite Htable3; apply lookup_delete_eq).
  exists s3. split; [| split; [done |]].
  - unfold IsChannelOpen. rewrite (bind_Ret _ _ s3 s3 false); [done |].
    rewrite (bind_Ret _ _ s3 s3 s3) by reflexivity.
    rewrite Hgone. by rewrite bool_decide_eq_false_2 by (by intros [? ?]).
  - unfold GetNextFrameOnChannel, GetChannelQueueOrThrow.
    apply bind_Throw. rewrite (bind_Ret _ _ s3 s3 s3) by reflexivity. by rewrite Hgone.
Qed.

Lemma GetChannel_hands_out_closed_channel_witness :
  m_free_channels buffered_example = []
  ∧ 0 ≤ next_send_status buffered_example
  ∧ ∃ s',
      (ReturnChannel 1;; FinishCloseChannel 1;;
       c ← GetChannel rpc_answered; open ← IsChannelOpen c; mret (c, open))
        buffered_example
      = (Ret (1, false), s')
      ∧ m_open_channels s' = delete 1 (m_open_channels buffered_example)
      ∧ GetNextFrameOnChannel 1 (header_frame 1) 0 s'
        = (Throw (runtime_error (Literal "Channel not found")), s').
Proof.
  assert (Hsend : 0 ≤ next_send_status buffered_example) by discriminate.
  split; [reflexivity |]. split; [exact Hsend |].
  exact (GetChannel_hands_out_closed_channel rpc_answered 1 (header_frame 1) 0
           buffered_example eq_refl Hsend).
Defined.

(** X10: an id that has just been allocated and closed again is not the
    next one handed out.  [GetNextChannelId] followed by
    [FinishCloseChannel] on the id it returned puts the open-channel table
    back as it was, but the counter stays at the closed id and the scan
    starts after it: the next [GetNextChannelId] returns a different id. *)
Theorem GetNextChannelId_after_close_moves_on (s : ChannelImpl) :
  channel_max (m_connection s) ≤ uint16_max →
  Z.of_nat (size (m_open_channels s)) < channel_bound (channel_max (m_connection s)) →
  ∃ c c' s1 s3,
    GetNextChannelId s = (Ret c, s1)
    ∧ m_open_channels (FinishCloseChannel c s1).2 = m_open_channels s
    ∧ m_next_channel_id (FinishCloseChannel c s1).2 = c
    ∧ GetNextChannelId (FinishCloseChannel c s1).2 = (Ret c', s3)
    ∧ c' ≠ c.
Proof.
  intros Hmax Hroom.
  destruct (GetNextChannelId_allocates s Hmax Hroom) as (c & Hrun & Hfree & Hrange).
  set (s1 := mk_impl _ _ _ _ _) in Hrun.
  set (s2 := (FinishCloseChannel c s1).2).
  assert (Htable : m_open_channels s2 = m_open_channels s).
  { subst s2 s1. rewrite FinishCloseChannel_run. simpl_members.
    by apply delete_insert_id. }
  assert (Hcounter : m_next_channel_id s2 = c)
    by (subst s2 s1; by rewrite FinishCloseChannel_run).
  assert (Hmax2 : channel_max (m_connection s2) = channel_max (m_connection s))
    by (subst s2 s1; by rewrite FinishCloseChannel_run).
  destruct (GetNextChannelId_scan s2) as (k & Hk & Hrun2 & _ & Hbelow).
  { by rewrite Hmax2. }
  { by rewrite Hmax2, Htable. }
  rewrite Hcounter, Htable in *.
  eexists c, _, s1, _. repeat split; [done | done | done | exact Hrun2 |].
  intros Hsame.
  assert (k = uint16_modulus) as ->
    by (unfold uint16_modulus in *; Z.to_euclidean_division_equations; lia).
  assert (Hall : (list_to_set (seqZ 0 uint16_modulus) : gset Z) ∖ {[ c ]}
                 ⊆ dom (m_open_channels s)).
  { intros x [Hx Hxc]%elem_of_difference.
    rewrite elem_of_list_to_set, elem_of_seqZ in Hx.
    rewrite not_elem_of_singleton in Hxc. apply elem_of_dom.
    specialize (Hbelow ((x - c) `mod` uint16_modulus)).
    replace ((c + (x - c) `mod` uint16_modulus) `mod` uint16_modulus) with x in Hbelow
      by (unfold uint16_modulus in *; Z.to_euclidean_division_equations; lia).
    apply Hbelow. unfold uint16_modulus in *.
    Z.to_euclidean_division_equations. lia. }
  apply subseteq_size in Hall.
  rewrite size_difference, size_list_to_set, length_seqZ, size_singleton, size_dom
    in Hall.
  - unfold channel_bound, uint16_max, uint16_modulus in *. case_decide; lia.
  - apply NoDup_seqZ.
  - apply singleton_subseteq_l. rewrite elem_of_list_to_set, elem_of_seqZ. lia.
Qed.

Lemma GetNextChannelId_after_close_moves_on_witness :
  channel_max (m_connection wrap_example) ≤ uint16_max
  ∧ Z.of_nat (size (m_open_channels wrap_example))
    < channel_bound (channel_max (m_connection wrap_example))
  ∧ ∃ c c' s1 s3,
      GetNextChannelId wrap_example = (Ret c, s1)
      ∧ m_open_channels (FinishCloseChannel c s1).2 = m_open_channels wrap_example
      ∧ m_next_channel_id (FinishCloseChannel c s1).2 = c
      ∧ GetNextChannelId (FinishCloseChannel c s1).2 = (Ret c', s3)
      ∧ c' ≠ c.
Proof.
  assert (Hmax : channel_max (m_connection wrap_example) ≤ uint16_max) by discriminate.
  assert (Hroom : Z.of_nat (size (m_open_channels wrap_example))
                  < channel_bound (channel_max (m_connection wrap_example)))
    by reflexivity.
  split; [exact Hmax |]. split; [exact Hroom |].
  exact (GetNextChannelId_after_close_moves_on wrap_example Hmax Hroom).
Defined.

(** ** What a read never does *)

Section Keeps.

Variable R : ChannelImpl → ChannelImpl → Prop.
Hypothesis R_refl : ∀ s, R s s.
Hypothesis R_trans : ∀ s1 s2 s3, R s1 s2 → R s2 s3 → R s1 s3.

Lemma keeps_pure {A} (m : M A) : (∀ s, (m s).2 = s) → keeps R m.
Proof. intros Hm s. rewrite Hm. apply R_refl. Qed.

Lemma keeps_bind {A B} (m : M A) (k : A → M B) :
  keeps R m → (∀ a, keeps R (k a)) → keeps R (m ≫= k).
Proof.
  intros Hm Hk s. unfold mbind, M_bind. specialize (Hm s).
  destruct (m s) as [[a | e |] s1]; [| done | done].
  exact (R_trans _ _ _ Hm (Hk a s1)).
Qed.

Lemma keeps_CheckForError (r : Z) (context : string) : keeps R (CheckForError r context).
Proof. apply keeps_pure. intros s. unfold CheckForError. by destruct (r <? 0). Qed.

Lemma keeps_GetChannelQueueOrThrow (ch : amqp_channel_t) :
  keeps R (GetChannelQueueOrThrow ch).
Proof.
  apply keeps_pure. intros s. unfold GetChannelQueueOrThrow. unfold_run.
  by destruct (m_open_channels s !! ch).
Qed.

(** The frame read and the routing loop, for a relation that is kept by
    the calls they make. *)
Hypothesis keeps_wait : keeps R amqp_simple_wait_frame.

Lemma keeps_GetNextFrameFromBroker_start (fuel : nat) (timeout : Z) :
  (timeout ≠ microseconds_max → keeps R (select timeout)) →
  keeps R (GetNextFrameFromBroker_start fuel timeout).
Proof.
  intros Hselect.
  assert (Hwait : keeps R (r ← amqp_simple_wait_frame;
                           CheckForError r.1 "ChannelImpl::GetNextFrameOnChannel";;
                           mret (Some r.2))).
  { apply keeps_bind; [done |]. intros r. apply keeps_bind; [apply keeps_CheckForError |].
    intros _. by apply keeps_pure. }
  induction fuel as [| fuel IH]; cbn [GetNextFrameFromBroker_start];
    destruct (Z.eqb_spec timeout microseconds_max) as [| Hne]; cbn [negb];
    try exact Hwait.
  - by apply keeps_pure.
  - apply keeps_bind; [by apply Hselect |]. intros r.
    destruct (r.1 =? 0); [by apply keeps_pure |].
    destruct (r.1 =? -1); [| exact Hwait].
    destruct (r.2 =? EINTR); [exact IH | by apply keeps_pure].
Qed.

Lemma keeps_GetNextFrameFromBroker (timeout : Z) :
  (timeout ≠ microseconds_max → keeps R (select timeout)) →
  keeps R (GetNextFrameFromBroker timeout).
Proof.
  intros Hselect s. unfold GetNextFrameFromBroker.
  rewrite (bind_Ret _ _ s s s) by reflexivity.
  by apply keeps_GetNextFrameFromBroker_start.
Qed.

Variables (ch : amqp_channel_t) (frame : amqp_frame_t) (timeout : Z).

Hypothesis keeps_close_connection : keeps R FinishCloseConnection.
Hypothesis keeps_close_channel : keeps R (FinishCloseChannel ch).
Hypothesis keeps_push : ∀ f, channel frame ≠ ch → keeps R (push_back (channel frame) f).
Hypothesis keeps_poll :
  timeout ≠ microseconds_max → (∀ t, keeps R (select t)) ∧ keeps R steady_clock_now.

Lemma keeps_while (fuel : nat) (end_point timeout_left : Z) :
  (timeout = microseconds_max → timeout_left = microseconds_max) →
  keeps R (GetNextFrameFromBrokerOnChannel_while fuel ch frame timeout end_point
             timeout_left).
Proof.
  revert timeout_left. induction fuel as [| fuel IH]; intros timeout_left Hleft;
    cbn [GetNextFrameFromBrokerOnChannel_while]; [by apply keeps_pure |].
  apply keeps_bind.
  { apply keeps_GetNextFrameFromBroker. intros Hne.
    destruct (decide (timeout = microseconds_max)) as [Heq | Hgiven];
      [by destruct (Hne (Hleft Heq)) |].
    by apply keeps_poll. }
  intros [received_frame |]; [| by apply keeps_pure].
  destruct (Z.eqb_spec (channel frame) ch) as [| Hother]; [by apply keeps_pure |].
  apply keeps_bind.
  - destruct (channel frame =? 0).
    + destruct (_ && _); [| by apply keeps_pure].
      apply keeps_bind; [done |]. intros _. by apply keeps_pure.
    + intros s. pose proof (keeps_push received_frame Hother s) as Hpush.
      unfold GetChannelQueueOrThrow, mbind, M_bind, get, throw, mret, M_ret.
      cbv beta iota.
      destruct (m_open_channels s !! channel frame); cbv beta iota; cbn [fst snd];
        [exact Hpush | apply R_refl].
  - intros _. destruct (Z.eqb_spec timeout microseconds_max) as [Heq | Hgiven]; cbn [negb].
    + by apply IH.
    + apply keeps_bind; [by apply keeps_poll |]. intros now.
      destruct (now >=? end_point); [by apply keeps_pure |].
      apply IH. by intros ?.
Qed.

Lemma keeps_GetNextFrameFromBrokerOnChannel :
  keeps R (GetNextFrameFromBrokerOnChannel ch frame timeout).
Proof.
  unfold GetNextFrameFromBrokerOnChannel. apply keeps_bind.
  - destruct (Z.eqb_spec timeout microseconds_max) as [Heq | Hgiven]; cbn [negb].
    + by apply keeps_pure.
    + apply keeps_bind; [by apply keeps_poll |]. intros now. by apply keeps_pure.
  - intros end_point s. rewrite (bind_Ret _ _ s s s) by reflexivity.
    by apply keeps_while.
Qed.

Lemma keeps_GetNextFrameOnChannel :
  keeps R (GetNextFrameOnChannel ch frame timeout).
Proof.
  unfold GetNextFrameOnChannel. apply keeps_bind; [apply keeps_GetChannelQueueOrThrow |].
  intros [c [| front rest]]; cbn [snd].
  - apply keeps_GetNextFrameFromBrokerOnChannel.
  - destruct (_ && _); [| by apply keeps_pure].
    apply keeps_bind; [done |]. intros _. by apply keeps_pure.
Qed.

End Keeps.

Lemma router_keeps_refl (ch : amqp_channel_t) (s : ChannelImpl) : router_keeps ch s s.
Proof.
  repeat split; try done; [by left |].
  exists []. by rewrite app_nil_r.
Qed.

Lemma router_keeps_trans (ch : amqp_channel_t) (s1 s2 s3 : ChannelImpl) :
  router_keeps ch s1 s2 → router_keeps ch s2 s3 → router_keeps ch s1 s3.
Proof.
  intros (Hn1 & Hf1 & Hc1 & Hm1 & Hd1 & Hq1 & acks1 & Hs1 & Ha1)
         (Hn2 & Hf2 & Hc2 & Hm2 & Hd2 & Hq2 & acks2 & Hs2 & Ha2).
  repeat split; try congruence.
  - by etrans.
  - destruct Hq2 as [Hq2 | Hq2]; [rewrite Hq2; exact Hq1 | by right].
  - exists (acks1 ++ acks2). split; [by rewrite Hs2, Hs1, app_assoc |].
    by apply Forall_app.
Qed.

(** A change of the connection's scripts alone. *)
Lemma router_keeps_scripts (ch : amqp_channel_t) (s : ChannelImpl)
    (c : amqp_connection_state_t) :
  channel_max c = channel_max (m_connection s) →
  sent c = sent (m_connection s) →
  router_keeps ch s (set_connection c s).
Proof.
  intros Hmax Hsent. repeat split; try done; [by left |].
  exists []. by rewrite app_nil_r.
Qed.

Lemma router_keeps_wait (ch : amqp_channel_t) :
  keeps (router_keeps ch) amqp_simple_wait_frame.
Proof.
  intros s. unfold amqp_simple_wait_frame.
  destruct (wait_script (m_connection s));
    [apply router_keeps_refl | by apply router_keeps_scripts].
Qed.

Lemma router_keeps_select (ch : amqp_channel_t) (timeout : Z) :
  keeps (router_keeps ch) (select timeout).
Proof.
  intros s. unfold select.
  destruct (select_script (m_connection s));
    [apply router_keeps_refl | by apply router_keeps_scripts].
Qed.

Lemma router_keeps_now (ch : amqp_channel_t) : keeps (router_keeps ch) steady_clock_now.
Proof.
  intros s. unfold steady_clock_now.
  destruct (clock (m_connection s));
    [apply router_keeps_refl | by apply router_keeps_scripts].
Qed.

Lemma router_keeps_FinishCloseConnection (ch : amqp_channel_t) :
  keeps (router_keeps ch) FinishCloseConnection.
Proof.
  intros s. rewrite FinishCloseConnection_run. repeat split; try done; [by left |].
  eexists. split; [reflexivity |]. apply Forall_singleton. by right.
Qed.

Lemma router_keeps_FinishCloseChannel (ch : amqp_channel_t) :
  keeps (router_keeps ch) (FinishCloseChannel ch).
Proof.
  intros s. rewrite FinishCloseChannel_run. repeat split; try done.
  - simpl_members. rewrite dom_delete_L. apply subseteq_difference_l. done.
  - right. apply lookup_delete_eq.
  - eexists. split; [reflexivity |]. apply Forall_singleton. by left.
Qed.

Lemma router_keeps_push_back (ch c : amqp_channel_t) (f : amqp_frame_t) :
  c ≠ ch → keeps (router_keeps ch) (push_back c f).
Proof.
  intros Hne s. unfold push_back, modify, set_open_channels.
  repeat split; try done.
  - simpl_members. by rewrite dom_alter_L.
  - left. simpl_members. by apply lookup_alter_ne.
  - exists []. by rewrite app_nil_r.
Qed.

(** X11: however it ends, [GetNextFrameOnChannel ch] leaves the id counter,
    the free-channel pool, the consumer registry and the advertised maximum
    as they were and opens no channel; the queue of [ch] itself is either
    untouched or gone with its entry (no frame is ever added to it), and
    the only methods it sends are channel-close and connection-close
    acknowledgements. *)
Theorem GetNextFrameOnChannel_keeps (ch : amqp_channel_t) (frame : amqp_frame_t)
    (timeout : Z) (s : ChannelImpl) :
  router_keeps ch s (GetNextFrameOnChannel ch frame timeout s).2.
Proof.
  apply (keeps_GetNextFrameOnChannel (router_keeps ch) (router_keeps_refl ch)
           (router_keeps_trans ch) (router_keeps_wait ch) ch frame timeout
           (router_keeps_FinishCloseConnection ch) (router_keeps_FinishCloseChannel ch)).
  - intros f Hne. by apply router_keeps_push_back.
  - intros _. split; [apply router_keeps_select | apply router_keeps_now].
Qed.

Lemma polls_nothing_refl (s : ChannelImpl) : polls_nothing s s.
Proof. by repeat split. Qed.

Lemma polls_nothing_trans (s1 s2 s3 : ChannelImpl) :
  polls_nothing s1 s2 → polls_nothing s2 s3 → polls_nothing s1 s3.
Proof. intros (? & ? & ?) (? & ? & ?). repeat split; congruence. Qed.

(** X12: with the wait-forever timeout [GetNextFrameOnChannel] makes no
    [select] call and never reads the clock, however many frames it reads
    and however it ends. *)
Theorem GetNextFrameOnChannel_wait_forever_polls_nothing (ch : amqp_channel_t)
    (frame : amqp_frame_t) (s : ChannelImpl) :
  polls_nothing s (GetNextFrameOnChannel ch frame microseconds_max s).2.
Proof.
  apply (keeps_GetNextFrameOnChannel polls_nothing polls_nothing_refl
           polls_nothing_trans).
  - intros s0. unfold amqp_simple_wait_frame.
    by destruct (wait_script (m_connection s0)).
  - intros s0. by rewrite FinishCloseConnection_run.
  - intros s0. by rewrite FinishCloseChannel_run.
  - intros f _ s0. done.
  - intros Hne. done.
Qed.

(** ** [GetNextFrameFromBroker]: interrupted polls and failures *)

Lemma GetNextFrameFromBroker_interrupted (timeout : Z) (rest : list (Z * Z))
    (s : ChannelImpl) :
  timeout ≠ microseconds_max →
  select_script (m_connection s) = (-1, EINTR) :: rest →
  GetNextFrameFromBroker timeout s
  = GetNextFrameFromBroker timeout (after_selects 1 timeout rest s).
Proof.
  intros Hne Hscript. unfold GetNextFrameFromBroker at 1.
  rewrite (bind_Ret _ _ s s s) by reflexivity.
  rewrite Hscript. cbn [length GetNextFrameFromBroker_start].
  rewrite (not_wait_forever _ Hne).
  rewrite (bind_Ret _ _ s (after_selects 1 timeout rest s) (-1, EINTR))
    by (unfold select; by rewrite Hscript).
  cbn [fst snd]. change (-1 =? 0) with false. change (-1 =? -1) with true.
  change (EINTR =? EINTR) with true. cbv iota.
  unfold GetNextFrameFromBroker. set (s1 := after_selects 1 timeout rest s).
  rewrite (bind_Ret _ _ s1 s1 s1) by reflexivity.
  change (select_script (m_connection s1)) with rest.
  cbn [GetNextFrameFromBroker_start]. by rewrite (not_wait_forever _ Hne).
Qed.

(** X13: a [select] interrupted by a signal is called again with the same
    timeout, not with the time that is left: after [k] interrupted calls
    [GetNextFrameFromBroker] goes on as if called afresh, [select] having
    been given [timeout] [k] times; when the next call reports the timeout,
    the result is [false] after [k + 1] calls with the full [timeout] and no
    frame has been read. *)
Theorem GetNextFrameFromBroker_retries_interrupted_select (k : nat) (timeout : Z)
    (rest : list (Z * Z)) (s : ChannelImpl) :
  timeout ≠ microseconds_max →
  select_script (m_connection s) = replicate k (-1, EINTR) ++ rest →
  GetNextFrameFromBroker timeout s
  = GetNextFrameFromBroker timeout (after_selects k timeout rest s)
  ∧ ∀ errno rest',
      rest = (0, errno) :: rest' →
      GetNextFrameFromBroker timeout s = (Ret None, after_selects (S k) timeout rest' s).
Proof.
  intros Hne Hscript.
  assert (Hretry : GetNextFrameFromBroker timeout s
                   = GetNextFrameFromBroker timeout (after_selects k timeout rest s)).
  { revert s Hscript. induction k as [| k IH]; intros s Hscript.
    - simpl in Hscript. unfold after_selects. rewrite <- Hscript, app_nil_r.
      by destruct s as [[] ? ? ? ?].
    - rewrite (GetNextFrameFromBroker_interrupted timeout
                 (replicate k (-1, EINTR) ++ rest) s Hne Hscript).
      rewrite (IH (after_selects 1 timeout (replicate k (-1, EINTR) ++ rest) s) eq_refl).
      unfold after_selects, set_connection. simpl_members.
      by rewrite <- app_assoc. }
  split; [exact Hretry |].
  intros errno rest' ->. rewrite Hretry.
  rewrite (GetNextFrameFromBroker_select_timeout timeout errno rest'
             (after_selects k timeout ((0, errno) :: rest') s) Hne eq_refl).
  unfold after_selects, set_connection. simpl_members.
  by rewrite <- app_assoc, <- replicate_cons_app.
Qed.

Lemma GetNextFrameFromBroker_retries_interrupted_select_witness :
  (0 ≠ microseconds_max)
  ∧ select_script (m_connection interrupted_example)
    = replicate 2 (-1, EINTR) ++ [(0, 0)]
  ∧ GetNextFrameFromBroker 0 interrupted_example
    = (Ret None, after_selects 3 0 [] interrupted_example)
  ∧ select_log (m_connection (GetNextFrameFromBroker 0 interrupted_example).2)
    = [0; 0; 0].
Proof.
  assert (Hne : 0 ≠ microseconds_max) by discriminate.
  split; [exact Hne |]. split; [reflexivity |].
  pose proof (proj2 (GetNextFrameFromBroker_retries_interrupted_select 2 0 [(0, 0)]
                       interrupted_example Hne eq_refl) 0 [] eq_refl) as Hrun.
  split; [exact Hrun |]. by rewrite Hrun.
Defined.





(** ** Where the frames that are not returned go *)

Section Buffering.

Variables (ch : amqp_channel_t) (frame : amqp_frame_t) (timeout start : Z).

(** The timeout in nanoseconds and the deadline are inside the 64-bit range
    of the clock. *)
Hypothesis timeout_fits : in_int64 (timeout * 1000).
Hypothesis deadline_fits : in_int64 (deadline timeout start).

(** The table after the frames [fs] have been set aside one by one. *)
Lemma set_aside_all (f : amqp_frame_t) (fs : list amqp_frame_t)
    (open : gmap Z (list amqp_frame_t)) :
  (if channel frame =? 0 then set_aside frame f open
   else alter (λ q, q ++ fs) (channel frame) (set_aside frame f open))
  = (if channel frame =? 0 then open
     else alter (λ q, q ++ f :: fs) (channel frame) open).
Proof.
  unfold set_aside. destruct (channel frame =? 0); [done |].
  rewrite alter_alter_eq. apply alter_ext. intros q _. simpl.
  by rewrite <- app_assoc.
Qed.

Lemma while_sets_aside (rounds : list round) (e : deadline_end) :
  ∀ (fuel : nat) (timeout_left : Z) (s : ChannelImpl)
    (srest : list (Z * Z)) (wrest : list (Z * amqp_frame_t)) (crest : list Z),
  (length rounds < fuel)%nat →
  timeout_left ≠ microseconds_max →
  (frames_read rounds e ≠ [] → set_aside_by ch frame (m_open_channels s)) →
  Forall (round_in_time timeout start) rounds →
  ending_at (deadline timeout start) e →
  select_script (m_connection s) = map round_select rounds ++ ending_select e :: srest →
  wait_script (m_connection s) = map round_wait rounds ++ ending_wait e ++ wrest →
  clock (m_connection s) = map round_now rounds ++ ending_now e ++ crest →
  ∃ s',
    GetNextFrameFromBrokerOnChannel_while fuel ch frame timeout
      (deadline timeout start) timeout_left s
    = (Ret (false, frame), s')
    ∧ m_open_channels s'
      = (if channel frame =? 0 then m_open_channels s
         else alter (λ q, q ++ frames_read rounds e) (channel frame) (m_open_channels s))
    ∧ wait_script (m_connection s') = wrest.
Proof.
  induction rounds as [| r rounds IH];
    intros fuel timeout_left s srest wrest crest Hfuel Hleft Haside Hrounds Hend
      Hselect Hwait Hclock;
    (destruct fuel as [| fuel]; [simpl in Hfuel; lia |]).
  - destruct e as [errno | r];
      cbn [ending_select ending_wait ending_now ending_at map app length frames_read]
        in *.
    + eexists. split; [by apply (while_select_timeout _ _ _ _ _ _ errno srest) |].
      split; [| done]. simpl_members.
      destruct (channel frame =? 0); [done |].
      symmetry. apply alter_id. intros q _. by rewrite app_nil_r.
    + destruct Hend as [Hreads Hlate]. specialize (Haside ltac:(done)).
      eexists. split; [| split].
      * rewrite (while_round ch frame timeout start timeout_fits _ _ _ _ _ _ _
                   Hleft Haside Hreads ltac:(lia) Hselect Hwait Hclock).
        by rewrite (proj2 (Z.geb_le _ _) Hlate).
      * done.
      * simpl. by rewrite Hwait.
  - apply Forall_cons in Hrounds as [[Hreads Htime] Hrounds].
    specialize (Haside ltac:(done)). simpl in Hselect, Hwait, Hclock.
    rewrite (while_round ch frame timeout start timeout_fits _ _ _ _ _ _ _
               Hleft Haside Hreads ltac:(lia) Hselect Hwait Hclock).
    destruct (Z.geb_spec (round_now r) (deadline timeout start)) as [? | _]; [lia |].
    destruct (IH fuel (budget timeout start (round_now r))
                (after_round frame timeout_left r s) srest wrest crest)
      as (s' & Hrun & Htable & Hrest).
    + simpl in Hfuel. lia.
    + apply (budget_given timeout start timeout_fits). lia.
    + intros _. simpl. by apply set_aside_by_after.
    + done.
    + done.
    + simpl. by rewrite Hselect.
    + simpl. by rewrite Hwait.
    + simpl. by rewrite Hclock.
    + exists s'. split; [done |]. split; [| done].
      rewrite Htable. cbn [after_round m_open_channels frames_read map app].
      apply set_aside_all.
Qed.

(** X15: where the frames go that a wait with a timeout reads and does not
    return, for a timeout whose deadline is inside the 64-bit nanosecond
    range of the clock.  On an open channel with an empty queue, when the
    caller's frame holds another open channel [c] other than 0, every frame
    read before the deadline is appended, in the order of arrival and
    whatever channel it carries, to the queue of [c]; when the caller's
    frame holds channel 0 (and is no connection close) the frames read are
    dropped.  All of them are used up from the broker and the call returns
    [false]. *)
Theorem GetNextFrameOnChannel_sets_aside_in_order (rounds : list round)
    (e : deadline_end) (s : ChannelImpl) (srest : list (Z * Z))
    (wrest : list (Z * amqp_frame_t)) (crest : list Z) :
  m_open_channels s !! ch = Some [] →
  (frames_read rounds e ≠ [] → set_aside_by ch frame (m_open_channels s)) →
  Forall (round_in_time timeout start) rounds →
  ending_at (deadline timeout start) e →
  select_script (m_connection s) = map round_select rounds ++ ending_select e :: srest →
  wait_script (m_connection s) = map round_wait rounds ++ ending_wait e ++ wrest →
  clock (m_connection s) = start :: map round_now rounds ++ ending_now e ++ crest →
  ∃ s',
    GetNextFrameOnChannel ch frame timeout s = (Ret (false, frame), s')
    ∧ m_open_channels s'
      = (if channel frame =? 0 then m_open_channels s
         else alter (λ q, q ++ frames_read rounds e) (channel frame) (m_open_channels s))
    ∧ wait_script (m_connection s') = wrest.
Proof.
  intros Hqueue Haside Hrounds Hend Hselect Hwait Hclock.
  set (s1 := set_connection
               (mk_conn (channel_max (m_connection s)) (send_status (m_connection s))
                  (sent (m_connection s)) (select_script (m_connection s))
                  (select_log (m_connection s)) (wait_script (m_connection s))
                  (map round_now rounds ++ ending_now e ++ crest)) s).
  assert (Hfuel : (length rounds < S (length (wait_script (m_connection s1))))%nat).
  { subst s1. simpl. rewrite Hwait, length_app, length_map. lia. }
  pose proof (fits_not_wait_forever _ timeout_fits) as timeout_given.
  assert (Hleft : timeout ≠ microseconds_max) by lia.
  destruct (while_sets_aside rounds e _ timeout s1 srest wrest crest
              Hfuel Hleft Haside Hrounds Hend Hselect Hwait eq_refl)
    as (s' & Hrun & Htable & Hrest).
  exists s'. split; [| split; [exact Htable | exact Hrest]].
  unfold GetNextFrameOnChannel, GetChannelQueueOrThrow.
  rewrite (bind_Ret _ _ s s (ch, [])).
  2: { rewrite (bind_Ret _ _ s s s) by reflexivity. by rewrite Hqueue. }
  cbn [snd]. unfold GetNextFrameFromBrokerOnChannel.
  rewrite not_wait_forever by lia.
  rewrite (bind_Ret _ _ s s1 (deadline timeout start)).
  2: { unfold steady_clock_now. unfold mbind, M_bind.
       by rewrite Hclock, (end_point_deadline timeout start). }
  by rewrite (bind_Ret _ _ s1 s1 s1) by reflexivity.
Qed.

End Buffering.

Lemma GetNextFrameOnChannel_sets_aside_in_order_witness :
  ∃ s',
    GetNextFrameOnChannel 1 (header_frame 2) 1000 two_frames_example
    = (Ret (false, header_frame 2), s')
    ∧ m_open_channels s'
      = alter (λ q, q ++ [body_frame 1 "first"; body_frame 3 "second"]) 2
          (m_open_channels two_frames_example)
    ∧ wait_script (m_connection s') = [].
Proof.
  refine (GetNextFrameOnChannel_sets_aside_in_order 1 (header_frame 2) 1000 0 _ _
            two_rounds (select_times_out 0) two_frames_example [] [] [] eq_refl _ _ I
            eq_refl eq_refl eq_refl).
  - vm_compute. split; [discriminate | reflexivity].
  - vm_compute. split; [discriminate | reflexivity].
  - intros _. split; [vm_compute; discriminate |].
    split; [reflexivity |]. intros _. eexists. reflexivity.
  - repeat constructor; vm_compute; discriminate.
Defined.

(** ** A deadline outside the range of the clock *)

Lemma int64_wrap_above (z : Z) : 2 ^ 63 ≤ z < 2 ^ 64 → int64_wrap z = z - 2 ^ 64.
Proof.
  intros Hz. unfold int64_wrap.
  replace (z + 2 ^ 63) with (z - 2 ^ 63 + 1 * 2 ^ 64) by lia.
  rewrite Z.mod_add by lia. rewrite Z.mod_small; lia.
Qed.

(** X18: a timeout so long that the deadline leaves the 64-bit nanosecond
    range of the clock.  When [start + timeout * 1000] is [2^63] or more,
    the 64-bit [end_point] wraps around to a time before [start]: a wait
    that reads a frame and sets it aside returns [false] at the clock
    reading taken after that frame, whatever the reading is, and reads no
    further frame.  [select] was called once, with the whole timeout. *)
Theorem GetNextFrameOnChannel_deadline_wraps (ch : amqp_channel_t)
    (frame : amqp_frame_t) (timeout start : Z) (r : round) (s : ChannelImpl)
    (srest : list (Z * Z)) (wrest : list (Z * amqp_frame_t)) (crest : list Z) :
  timeout < microseconds_max →
  0 ≤ start ≤ round_now r →
  2 ^ 63 ≤ deadline timeout start < 2 ^ 64 →
  m_open_channels s !! ch = Some [] →
  set_aside_by ch frame (m_open_channels s) →
  round_reads r →
  select_script (m_connection s) = round_select r :: srest →
  wait_script (m_connection s) = round_wait r :: wrest →
  clock (m_connection s) = start :: round_now r :: crest →
  ∃ s',
    GetNextFrameOnChannel ch frame timeout s = (Ret (false, frame), s')
    ∧ select_log (m_connection s') = select_log (m_connection s) ++ [timeout]
    ∧ select_script (m_connection s') = srest
    ∧ wait_script (m_connection s') = wrest
    ∧ m_open_channels s' = set_aside frame (round_wait r).2 (m_open_channels s).
Proof.
  intros Hgiven Hnow Hwraps Hqueue Haside Hreads Hselect Hwait Hclock.
  set (s1 := set_connection
               (mk_conn (channel_max (m_connection s)) (send_status (m_connection s))
                  (sent (m_connection s)) (select_script (m_connection s))
                  (select_log (m_connection s)) (wait_script (m_connection s))
                  (round_now r :: crest)) s).
  exists (after_round frame timeout r s1).
  split; [| subst s1; unfold after_round; simpl_members; by rewrite Hselect, Hwait].
  unfold GetNextFrameOnChannel, GetChannelQueueOrThrow.
  rewrite (bind_Ret _ _ s s (ch, [])).
  2: { rewrite (bind_Ret _ _ s s s) by reflexivity. by rewrite Hqueue. }
  cbn [snd]. unfold GetNextFrameFromBrokerOnChannel.
  rewrite not_wait_forever by lia.
  rewrite (bind_Ret _ _ s s1 (deadline timeout start - 2 ^ 64)).
  2: { unfold steady_clock_now. unfold mbind, M_bind. rewrite Hclock.
       by rewrite int64_wrap_add, <- (int64_wrap_above _ Hwraps). }
  rewrite (bind_Ret _ _ s1 s1 s1) by reflexivity.
  rewrite (while_turn ch frame timeout _ timeout _ r srest wrest crest s1
             ltac:(lia) ltac:(lia) Haside Hreads Hselect Hwait eq_refl).
  destruct (Z.geb_spec (round_now r) (deadline timeout start - 2 ^ 64)); [done | lia].
Qed.

Lemma GetNextFrameOnChannel_deadline_wraps_witness :
  ∃ s',
    GetNextFrameOnChannel 1 (header_frame 2) 10000000000000000 long_wait_example
    = (Ret (false, header_frame 2), s')
    ∧ select_log (m_connection s') = [10000000000000000]
    ∧ select_script (m_connection s') = [(1, 0)]
    ∧ wait_script (m_connection s') = [(0, body_frame 1 "unread")]
    ∧ m_open_channels s'
      = set_aside (header_frame 2) (body_frame 2 "early")
          (m_open_channels long_wait_example).
Proof.
  refine (GetNextFrameOnChannel_deadline_wraps 1 (header_frame 2) 10000000000000000 0
            early_round long_wait_example [(1, 0)] [(0, body_frame 1 "unread")] []
            _ _ _ eq_refl _ _ eq_refl eq_refl eq_refl).
  - reflexivity.
  - split; vm_compute; discriminate.
  - split; vm_compute; [discriminate | reflexivity].
  - split; [vm_compute; discriminate |].
    split; [reflexivity |]. intros _. eexists. reflexivity.
  - repeat split; vm_compute; discriminate.
Defined.

(** ** The consumer registry, tag by tag *)

(** X16: the registry treats tags independently, and a failed lookup or
    removal changes nothing.  For two different tags, neither
    [AddConsumer] nor [RemoveConsumer] on the one changes what
    [GetConsumerChannel] answers for the other; [GetConsumerChannel] never
    changes a member; [RemoveConsumer] on a tag that is not registered
    throws [ConsumerTagNotFoundException] and leaves every member as it
    was. *)
Theorem consumer_tags_independent (t t' : string) (c : amqp_channel_t)
    (s : ChannelImpl) :
  t ≠ t' →
  (GetConsumerChannel t' (AddConsumer t c s).2).1 = (GetConsumerChannel t' s).1
  ∧ (GetConsumerChannel t' (RemoveConsumer t s).2).1 = (GetConsumerChannel t' s).1
  ∧ (GetConsumerChannel t' s).2 = s
  ∧ (m_consumer_channel_map s !! t = None →
     RemoveConsumer t s = (Throw ConsumerTagNotFoundException, s)).
Proof.
  intros Hne. destruct s as [conn nxt open free registry].
  unfold GetConsumerChannel, AddConsumer, RemoveConsumer, set_consumer_channel_map,
    std_map_insert.
  unfold_run. repeat split.
  - destruct (registry !! t) eqn:Ht; simpl_members; [done |].
    rewrite lookup_insert_ne by done. by destruct (registry !! t').
  - destruct (registry !! t) eqn:Ht; simpl_members; [| done].
    rewrite lookup_delete_ne by done. by destruct (registry !! t').
  - by destruct (registry !! t').
  - by intros ->.
Qed.

Lemma consumer_tags_independent_witness :
  "tag1" ≠ "tag3"
  ∧ (GetConsumerChannel "tag3" (AddConsumer "tag1" 5 two_tags_example).2).1 = Ret 9
  ∧ (GetConsumerChannel "tag3" (RemoveConsumer "tag1" two_tags_example).2).1 = Ret 9.
Proof.
  assert (Hne : "tag1" ≠ "tag3") by discriminate.
  pose proof (consumer_tags_independent "tag1" "tag3" 5 two_tags_example Hne)
    as (Hadd & Hremove & _).
  split; [exact Hne |]. split; [exact Hadd | exact Hremove].
Defined.
